(** * uuidv8: a shallow embedding of the encoder, decoder and text codec

    The Go package [uuidv8] (files [uuidv8.go] and [helper.go]) packs a
    timestamp, a clock sequence and a node into a 16-byte buffer, prints
    the buffer as dashed lower-case hex, and parses such text back.

    Conventions of the embedding:
    - Go's [uint64], [uint16], [byte] and [int] values are [Z]; every
      conversion that can wrap ([byte(x)], [uint16(x) << 8], ...) is
      written with an explicit [mod];
    - a [[]byte] is a [list Z]; reading, writing or slicing out of range
      is a run-time panic in Go and is the outcome [Err Panic] here;
    - a Go [string] is a [string]: a sequence of 8-bit characters;
    - a Go [(T, error)] result is a [result T]; errors are kept by kind. *)

From Stdlib Require Import ZArith List String Ascii Bool Lia.
From coqutil Require Import Z.bitblast.
Import ListNotations.
Local Open Scope Z_scope.

(** ** Errors and the error monad *)

Inductive error : Type :=
| InvalidNodeLength          (* NewWithParams: "node must be 6 bytes, got %d bytes" *)
| UnsupportedTimestampWidth  (* encodeTimestamp: "unsupported timestamp bit size: %d" *)
| InvalidFormat              (* parseUUID: "invalid UUID format" *)
| InvalidLength              (* parseUUID: "invalid UUID length" *)
| InvalidHexEncoding         (* encoding/hex: InvalidByteError *)
| HexOddLength               (* encoding/hex: ErrLength *)
| FailedToParse (e : error)  (* FromString: "failed to parse UUID: %w" *)
| NotValidObject             (* MarshalJSON: "object is not a valid UUIDv8" *)
| NotValidString             (* MarshalJSON: "string representation is not a valid UUIDv8" *)
| JSONError                  (* an error of encoding/json *)
| Panic.                     (* run-time panic: index or slice out of range, nil dereference *)

Inductive result (A : Type) : Type :=
| Ok (a : A)
| Err (e : error).
Arguments Ok {A} a.
Arguments Err {A} e.

Definition bind {A B : Type} (c : result A) (k : A -> result B) : result B :=
  match c with
  | Ok a => k a
  | Err e => Err e
  end.

Notation "x <- c ;; k" := (bind c (fun x => k))
  (at level 61, c at next level, right associativity).

(** ** Machine integers *)

(** [byte(x)], [uint16(x)] and [uint64(x)]: keep the low bits. *)
Definition to_byte (x : Z) : Z := x mod 2 ^ 8.
Definition to_uint16 (x : Z) : Z := x mod 2 ^ 16.
Definition to_uint64 (x : Z) : Z := x mod 2 ^ 64.

Definition is_byte (x : Z) : Prop := 0 <= x < 2 ^ 8.
Definition is_uint16 (x : Z) : Prop := 0 <= x < 2 ^ 16.
Definition is_uint64 (x : Z) : Prop := 0 <= x < 2 ^ 64.

(** ** Byte slices *)

(** [b[i]] *)
Definition idx (b : list Z) (i : nat) : result Z :=
  match nth_error b i with
  | Some x => Ok x
  | None => Err Panic
  end.

Fixpoint update (b : list Z) (i : nat) (v : Z) : list Z :=
  match b, i with
  | [], _ => []
  | _ :: b', O => v :: b'
  | x :: b', S i' => x :: update b' i' v
  end.

(** [b[i] = v] *)
Definition set_idx (b : list Z) (i : nat) (v : Z) : result (list Z) :=
  if (i <? List.length b)%nat then Ok (update b i v) else Err Panic.

(** [b[i], b[i+1], ... = v0, v1, ...]: the values are computed first and
    stored from left to right. *)
Fixpoint set_from (b : list Z) (i : nat) (vs : list Z) : result (list Z) :=
  match vs with
  | [] => Ok b
  | v :: vs' => b' <- set_idx b i v ;; set_from b' (S i) vs'
  end.

(** [b[lo:hi]] for a slice whose capacity is its length. *)
Definition slice (b : list Z) (lo hi : nat) : result (list Z) :=
  if (lo <=? hi)%nat && (hi <=? List.length b)%nat
  then Ok (firstn (hi - lo) (skipn lo b))
  else Err Panic.

(** [copy(dst[off:], src)]: copies [min(len(dst) - off, len(src))] bytes. *)
Definition copy_at (dst : list Z) (off : nat) (src : list Z) : result (list Z) :=
  if (off <=? List.length dst)%nat
  then Ok (firstn off dst
           ++ firstn (List.length dst - off) src
           ++ skipn (off + Nat.min (List.length dst - off) (List.length src)) dst)
  else Err Panic.

(** ** Constants of [uuidv8.go] *)

Definition variantRFC4122 : Z := 2.   (* 0b10 *)
Definition versionV8 : Z := 8.        (* 0x8 *)

Definition TimestampBits32 : Z := 32.
Definition TimestampBits48 : Z := 48.
Definition TimestampBits60 : Z := 60.

Record UUIDv8 : Type := mkUUIDv8 {
  Timestamp : Z;       (* uint64 *)
  ClockSeq : Z;        (* uint16 *)
  Node : list Z        (* []byte *)
}.

(** ** [helper.go] *)

Definition encodeTimestamp (uuid : list Z) (timestamp : Z) (timestampBits : Z)
  : result (list Z) :=
  if timestampBits =? TimestampBits32 then
    uuid <- set_from uuid 0
      [to_byte (Z.shiftr timestamp 24); to_byte (Z.shiftr timestamp 16);
       to_byte (Z.shiftr timestamp 8); to_byte timestamp] ;;
    set_from uuid 4 [0; 0]
  else if timestampBits =? TimestampBits48 then
    set_from uuid 0
      [to_byte (Z.shiftr timestamp 40); to_byte (Z.shiftr timestamp 32);
       to_byte (Z.shiftr timestamp 24); to_byte (Z.shiftr timestamp 16);
       to_byte (Z.shiftr timestamp 8); to_byte timestamp]
  else if timestampBits =? TimestampBits60 then
    set_from uuid 0
      [to_byte (Z.shiftr timestamp 52); to_byte (Z.shiftr timestamp 44);
       to_byte (Z.shiftr timestamp 36); to_byte (Z.shiftr timestamp 28);
       to_byte (Z.shiftr timestamp 20); to_byte (Z.shiftr timestamp 12);
       to_byte (Z.shiftr timestamp 4)]
  else Err UnsupportedTimestampWidth.

Definition decodeTimestamp (uuidBytes : list Z) : result Z :=
  b0 <- idx uuidBytes 0 ;; b1 <- idx uuidBytes 1 ;; b2 <- idx uuidBytes 2 ;;
  b3 <- idx uuidBytes 3 ;; b4 <- idx uuidBytes 4 ;; b5 <- idx uuidBytes 5 ;;
  Ok (Z.lor (Z.lor (Z.lor (Z.lor (Z.lor
        (to_uint64 (Z.shiftl b0 40))
        (to_uint64 (Z.shiftl b1 32)))
        (to_uint64 (Z.shiftl b2 24)))
        (to_uint64 (Z.shiftl b3 16)))
        (to_uint64 (Z.shiftl b4 8)))
        b5).

(** *** [encoding/hex] and the [%x] verb of [fmt] on byte slices *)

Definition char_code (c : ascii) : Z := Z.of_N (N_of_ascii c).

(** [hex.fromHexChar] (the table [reverseHexTable]). *)
Definition fromHexChar (c : ascii) : option Z :=
  let n := char_code c in
  if (48 <=? n) && (n <=? 57) then Some (n - 48)
  else if (97 <=? n) && (n <=? 102) then Some (n - 97 + 10)
  else if (65 <=? n) && (n <=? 70) then Some (n - 65 + 10)
  else None.

(** [hex.Decode]: pairs of characters from left to right; the first bad
    character stops the loop; an odd length is reported last. The error
    is kept by kind: [InvalidHexEncoding] stands for [InvalidByteError]
    of any byte, and the bytes decoded before the error are dropped, as
    every caller of [parseUUID] drops them. [hex_Decode_full] below
    keeps both. *)
Fixpoint hex_Decode (src : list ascii) : result (list Z) :=
  match src with
  | [] => Ok []
  | p :: q :: rest =>
      match fromHexChar p, fromHexChar q with
      | Some a, Some b =>
          bs <- hex_Decode rest ;; Ok (Z.lor (to_byte (Z.shiftl a 4)) b :: bs)
      | _, _ => Err InvalidHexEncoding
      end
  | [p] =>
      match fromHexChar p with
      | Some _ => Err HexOddLength
      | None => Err InvalidHexEncoding
      end
  end.

Definition hex_DecodeString (s : string) : result (list Z) :=
  hex_Decode (list_ascii_of_string s).

(** The digits of [fmt]: [ldigits = "0123456789abcdefx"]. *)
Definition ldigits : list ascii := list_ascii_of_string "0123456789abcdefx".

Definition digit (d : Z) : ascii := nth (Z.to_nat d) ldigits zero.

(** [%x] on a byte slice: two digits per byte, [ldigits[c>>4]] then
    [ldigits[c&0xF]]. *)
Definition hex_chars (bs : list Z) : list ascii :=
  flat_map (fun c => [digit (Z.shiftr c 4); digit (Z.land c 0xF)]) bs.

(** [%0Nx]: left padding with zeros up to the width [N]. *)
Definition fmt_x (width : nat) (bs : list Z) : list ascii :=
  let s := hex_chars bs in
  repeat "0"%char (width - List.length s) ++ s.

Definition dash : ascii := "-"%char.

Definition isAllZeroUUID (uuidBytes : list Z) : bool :=
  forallb (fun b => b =? 0) uuidBytes.

Definition formatUUID (uuid : list Z) : result string :=
  g0 <- slice uuid 0 4 ;; g1 <- slice uuid 4 6 ;; g2 <- slice uuid 6 8 ;;
  g3 <- slice uuid 8 10 ;; g4 <- slice uuid 10 16 ;;
  Ok (string_of_list_ascii
        (fmt_x 8 g0 ++ dash :: fmt_x 4 g1 ++ dash :: fmt_x 4 g2 ++ dash ::
         fmt_x 4 g3 ++ dash :: fmt_x 12 g4)).

(** The loop of [parseUUID]: [result[j] = uuid[i]; j++] for every
    character that is not a dash. [result] holds characters here: it is
    only ever turned back into a string. *)
Fixpoint update_char (b : list ascii) (i : nat) (v : ascii) : list ascii :=
  match b, i with
  | [], _ => []
  | _ :: b', O => v :: b'
  | x :: b', S i' => x :: update_char b' i' v
  end.

Fixpoint removeDashes (uuid : list ascii) (res : list ascii) (j : nat)
  : result (list ascii) :=
  match uuid with
  | [] => Ok res
  | c :: rest =>
      if Ascii.eqb c dash then removeDashes rest res j
      else if (j <? List.length res)%nat
           then removeDashes rest (update_char res j c) (S j)
           else Err Panic
  end.

Definition char_at (s : list ascii) (i : nat) : result ascii :=
  match nth_error s i with
  | Some c => Ok c
  | None => Err Panic
  end.

Definition parseUUID (uuid : string) : result (list Z) :=
  let s := list_ascii_of_string uuid in
  if (List.length s =? 32)%nat then hex_DecodeString uuid
  else if (List.length s =? 36)%nat then
    c8 <- char_at s 8 ;;
    if negb (Ascii.eqb c8 dash) then Err InvalidFormat else
    c13 <- char_at s 13 ;;
    if negb (Ascii.eqb c13 dash) then Err InvalidFormat else
    c18 <- char_at s 18 ;;
    if negb (Ascii.eqb c18 dash) then Err InvalidFormat else
    c23 <- char_at s 23 ;;
    if negb (Ascii.eqb c23 dash) then Err InvalidFormat else
    res <- removeDashes s (repeat zero 32) 0 ;;
    hex_DecodeString (string_of_list_ascii res)
  else Err InvalidLength.

(** ** [parseUUID] with its two results in full *)

(** The errors of [encoding/hex]: [InvalidByteError] carries the byte
    that is not a hex digit. *)
Inductive hex_error : Type :=
| InvalidByteError (c : ascii)
| ErrLength.

(** [hex.Decode] with both of its results: the bytes written before the
    loop stopped, and the error, if any. In a pair the first character
    is reported before the second. *)
Fixpoint hex_Decode_full (src : list ascii) : list Z * option hex_error :=
  match src with
  | [] => ([], None)
  | p :: q :: rest =>
      match fromHexChar p with
      | None => ([], Some (InvalidByteError p))
      | Some a =>
          match fromHexChar q with
          | None => ([], Some (InvalidByteError q))
          | Some b =>
              let (bs, err) := hex_Decode_full rest in
              (Z.lor (to_byte (Z.shiftl a 4)) b :: bs, err)
          end
      end
  | [p] =>
      match fromHexChar p with
      | Some _ => ([], Some ErrLength)
      | None => ([], Some (InvalidByteError p))
      end
  end.

(** The errors that [parseUUID] returns. *)
Inductive parse_error : Type :=
| InvalidUUIDFormat            (* "invalid UUID format" *)
| InvalidUUIDLength            (* "invalid UUID length" *)
| HexError (e : hex_error).    (* the error of hex.DecodeString, unwrapped *)

(** [hex.DecodeString]: the decoded prefix and the error. *)
Definition hex_DecodeString_full (s : string) : list Z * option parse_error :=
  let (bs, err) := hex_Decode_full (list_ascii_of_string s) in
  (bs, option_map HexError err).

(** [parseUUID] returning the pair that the Go function returns: the
    byte slice ([nil] is the empty list) and the error. [Err] is a
    panic only. *)
Definition parseUUID_full (uuid : string)
  : result (list Z * option parse_error) :=
  let s := list_ascii_of_string uuid in
  if (List.length s =? 32)%nat then Ok (hex_DecodeString_full uuid)
  else if (List.length s =? 36)%nat then
    c8 <- char_at s 8 ;;
    if negb (Ascii.eqb c8 dash) then Ok ([], Some InvalidUUIDFormat) else
    c13 <- char_at s 13 ;;
    if negb (Ascii.eqb c13 dash) then Ok ([], Some InvalidUUIDFormat) else
    c18 <- char_at s 18 ;;
    if negb (Ascii.eqb c18 dash) then Ok ([], Some InvalidUUIDFormat) else
    c23 <- char_at s 23 ;;
    if negb (Ascii.eqb c23 dash) then Ok ([], Some InvalidUUIDFormat) else
    res <- removeDashes s (repeat zero 32) 0 ;;
    Ok (hex_DecodeString_full (string_of_list_ascii res))
  else Ok ([], Some InvalidUUIDLength).

(** ** [uuidv8.go] *)

(** The buffer that [NewWithParams] fills (lines 83 to 102), before it
    is formatted. *)
Definition NewWithParams_uuid (timestamp clockSeq : Z) (node : list Z)
    (timestampBits : Z) : result (list Z) :=
  if negb (List.length node =? 6)%nat then Err InvalidNodeLength else
  let uuid := repeat 0 16 in
  uuid <- encodeTimestamp uuid timestamp timestampBits ;;
  uuid <- set_idx uuid 6
            (Z.lor (to_byte (Z.shiftl versionV8 4))
                   (to_byte (Z.shiftr clockSeq 8))) ;;
  uuid <- set_idx uuid 7 (to_byte clockSeq) ;;
  b7 <- idx uuid 7 ;;
  uuid <- set_idx uuid 7 (Z.lor (Z.land b7 0x3F) (Z.shiftl variantRFC4122 6)) ;;
  copy_at uuid 8 node.

Definition NewWithParams (timestamp clockSeq : Z) (node : list Z)
    (timestampBits : Z) : result string :=
  uuid <- NewWithParams_uuid timestamp clockSeq node timestampBits ;;
  formatUUID uuid.

(** The field extraction of [FromString] (lines 121 to 139). *)
Definition FromString_fields (uuidBytes : list Z) : result UUIDv8 :=
  b0 <- idx uuidBytes 0 ;; b1 <- idx uuidBytes 1 ;; b2 <- idx uuidBytes 2 ;;
  b3 <- idx uuidBytes 3 ;; b4 <- idx uuidBytes 4 ;; b5 <- idx uuidBytes 5 ;;
  let timestamp :=
    Z.lor (Z.lor (Z.lor (Z.lor (Z.lor
        (to_uint64 (Z.shiftl b0 40))
        (to_uint64 (Z.shiftl b1 32)))
        (to_uint64 (Z.shiftl b2 24)))
        (to_uint64 (Z.shiftl b3 16)))
        (to_uint64 (Z.shiftl b4 8)))
        b5 in
  b6 <- idx uuidBytes 6 ;; b7 <- idx uuidBytes 7 ;;
  let clockSeq := Z.lor (to_uint16 (Z.shiftl (Z.land b6 0x0F) 8)) b7 in
  node <- slice uuidBytes 8 14 ;;
  Ok (mkUUIDv8 timestamp clockSeq node).

Definition FromString (uuid : string) : result UUIDv8 :=
  match parseUUID uuid with
  | Err Panic => Err Panic
  | Err e => Err (FailedToParse e)
  | Ok uuidBytes => FromString_fields uuidBytes
  end.

(** [nil] is [None]; a panic is kept apart from it. *)
Definition FromStringOrNil (uuid : string) : result (option UUIDv8) :=
  match parseUUID uuid with
  | Err Panic => Err Panic
  | Err _ => Ok None
  | Ok uuidBytes =>
      if isAllZeroUUID uuidBytes then Ok None else
      head6 <- slice uuidBytes 0 6 ;;
      timestamp <- decodeTimestamp head6 ;;
      b6 <- idx uuidBytes 6 ;; b7 <- idx uuidBytes 7 ;;
      let clockSeq := Z.lor (to_uint16 (Z.shiftl (Z.land b6 0x0F) 8)) b7 in
      node <- slice uuidBytes 8 14 ;;
      Ok (Some (mkUUIDv8 timestamp clockSeq node))
  end.

Definition IsValidUUIDv8 (uuid : string) : result bool :=
  match parseUUID uuid with
  | Err Panic => Err Panic
  | Err _ => Ok false
  | Ok uuidBytes =>
      if isAllZeroUUID uuidBytes then Ok false else
      b6 <- idx uuidBytes 6 ;;
      let version := Z.shiftr b6 4 in
      b7 <- idx uuidBytes 7 ;;
      let variant := Z.land (Z.shiftr b7 6) 3 in
      Ok ((version =? versionV8) && (variant =? variantRFC4122))
  end.

(** The buffer that [ToString] fills (lines 196 to 212); [None] stands
    for the early [return ""] on an encoding error. *)
Definition ToString_uuid (uuidv8 : UUIDv8) : result (option (list Z)) :=
  let uuid := repeat 0 16 in
  match encodeTimestamp uuid (Timestamp uuidv8) TimestampBits48 with
  | Err Panic => Err Panic
  | Err _ => Ok None
  | Ok uuid =>
      uuid <- set_idx uuid 6
                (Z.lor (to_byte (Z.shiftl versionV8 4))
                       (to_byte (Z.shiftr (ClockSeq uuidv8) 8))) ;;
      uuid <- set_idx uuid 7 (to_byte (ClockSeq uuidv8)) ;;
      b7 <- idx uuid 7 ;;
      uuid <- set_idx uuid 7 (Z.lor (Z.land b7 0x3F) (Z.shiftl variantRFC4122 6)) ;;
      uuid <- copy_at uuid 8 (Node uuidv8) ;;
      Ok (Some uuid)
  end.

(** [ToString] on the struct that a non-nil pointer refers to;
    [ToString_ptr] below takes the pointer. *)
Definition ToString (uuidv8 : UUIDv8) : result string :=
  ouuid <- ToString_uuid uuidv8 ;;
  match ouuid with
  | None => Ok EmptyString
  | Some uuid => formatUUID uuid
  end.

(** [ToString] on its argument as Go passes it, a pointer: [None] is
    [nil], which line 199 dereferences. *)
Definition ToString_ptr (uuidv8 : option UUIDv8) : result string :=
  match uuidv8 with
  | None => Err Panic
  | Some u => ToString u
  end.

(** [MarshalJSON]; the receiver is a pointer, [None] is [nil].
    [json_Marshal] is [json.Marshal] of [encoding/json] at a string. *)
Definition MarshalJSON (json_Marshal : string -> result string)
    (u : option UUIDv8) : result string :=
  match u with
  | None => Err NotValidObject
  | Some u =>
      if negb (List.length (Node u) =? 6)%nat || (Timestamp u =? 0)
         || (ClockSeq u >? 0x0FFF)
      then Err NotValidObject
      else
        uuidStr <- ToString u ;;
        valid <- IsValidUUIDv8 uuidStr ;;
        if negb valid then Err NotValidString else json_Marshal uuidStr
  end.

(** ** The rest of [uuidv8.go] *)

(** Errors of the functions below. [Core] carries an error of the
    functions above unchanged. *)
Inductive api_error : Type :=
| Core (e : error)
| RandomClockSeqFailed         (* New: "failed to generate random clock sequence: %w" *)
| RandomNodeFailed             (* New: "failed to generate random node: %w" *)
| FailedToUnmarshal            (* UnmarshalJSON: "failed to unmarshal JSON: %w" *)
| NotValidInput                (* UnmarshalJSON: "input is not a valid UUIDv8: %s" *)
| FailedToParseString (e : error)  (* UnmarshalJSON: "failed to parse UUID string: %w" *)
| UnsupportedType.             (* Scan: "unsupported type for UUIDv8" *)

Inductive outcome (A : Type) : Type :=
| Done (a : A)
| Failed (e : api_error).
Arguments Done {A} a.
Arguments Failed {A} e.

Definition lift {A : Type} (r : result A) : outcome A :=
  match r with
  | Ok a => Done a
  | Err e => Failed (Core e)
  end.

(** [rand.Read(b)] of [crypto/rand]: the entropy source either fails or
    supplies bytes; the buffer is filled entirely or the read fails. *)
Definition rand_Read (entropy : option (list Z)) (b : list Z) : option (list Z) :=
  match entropy with
  | Some bytes =>
      if (List.length b <=? List.length bytes)%nat
      then Some (firstn (List.length b) bytes)
      else None
  | None => None
  end.

(** [binary.BigEndian.Uint16]: [uint16(b[1]) | uint16(b[0])<<8]. *)
Definition BigEndian_Uint16 (b : list Z) : result Z :=
  b1 <- idx b 1 ;; b0 <- idx b 0 ;;
  Ok (Z.lor b1 (to_uint16 (Z.shiftl b0 8))).

(** [New]. The clock and the entropy source are inputs: [unixNano] is
    [time.Now().UnixNano()], an [int64]; [entropy1] and [entropy2] are
    what the source gives to the two calls of [rand.Read]. *)
Definition New (unixNano : Z) (entropy1 entropy2 : option (list Z))
  : outcome string :=
  let timestamp := to_uint64 unixNano in
  match rand_Read entropy1 (repeat 0 2) with
  | None => Failed RandomClockSeqFailed
  | Some clockSeq =>
      match BigEndian_Uint16 clockSeq with
      | Err e => Failed (Core e)
      | Ok v =>
          let clockSeqValue := Z.land v 0x0FFF in
          match rand_Read entropy2 (repeat 0 6) with
          | None => Failed RandomNodeFailed
          | Some node =>
              lift (NewWithParams timestamp clockSeqValue node TimestampBits48)
          end
      end
  end.

(** [UnmarshalJSON]. The result is the receiver [*u] after the call and
    the error, if any; the pointer [u] itself is not nil.
    [json_Unmarshal] is [json.Unmarshal] of [encoding/json] into a
    string variable. *)
Definition UnmarshalJSON (json_Unmarshal : string -> result string)
    (u : UUIDv8) (data : string) : UUIDv8 * option api_error :=
  match json_Unmarshal data with
  | Err _ => (u, Some FailedToUnmarshal)
  | Ok uuidStr =>
      match IsValidUUIDv8 uuidStr with
      | Err e => (u, Some (Core e))
      | Ok false => (u, Some NotValidInput)
      | Ok true =>
          match FromString uuidStr with
          | Err e => (u, Some (FailedToParseString e))
          | Ok parsed => (parsed, None)
          end
      end
  end.

(** [Value]; [None] is the [nil] receiver and the [nil] driver value. *)
Definition Value (u : option UUIDv8) : result (option string) :=
  match u with
  | None => Ok None
  | Some u =>
      if negb (List.length (Node u) =? 6)%nat then Ok None
      else s <- ToString u ;; Ok (Some s)
  end.

(** The dynamic type of the argument of [Scan]. *)
Inductive scan_value : Type :=
| ScanString (v : string)
| ScanBytes (v : list Z)
| ScanOther.

(** [string(v)] for a byte slice, and [[]byte(s)]. *)
Definition string_of_bytes (v : list Z) : string :=
  string_of_list_ascii (map (fun b => ascii_of_N (Z.to_N b)) v).

Definition bytes_of_string (s : string) : list Z :=
  map char_code (list_ascii_of_string s).

(** [Scan]: the receiver [*u] after the call and the error, if any;
    the pointer [u] itself is not nil. *)
Definition Scan (u : UUIDv8) (value : scan_value) : UUIDv8 * option api_error :=
  match value with
  | ScanString v =>
      match FromString v with
      | Err e => (u, Some (Core e))
      | Ok parsed => (parsed, None)
      end
  | ScanBytes v =>
      match FromString (string_of_bytes v) with
      | Err e => (u, Some (Core e))
      | Ok parsed => (parsed, None)
      end
  | ScanOther => (u, Some UnsupportedType)
  end.

(** ** Specification-side vocabulary *)

Definition is_lower_hex (c : ascii) : bool :=
  let n := char_code c in
  ((48 <=? n) && (n <=? 57)) || ((97 <=? n) && (n <=? 102)).

Definition is_hex_digit (c : ascii) : bool :=
  let n := char_code c in
  is_lower_hex c || ((65 <=? n) && (n <=? 70)).

(** ASCII lower-casing, as [strings.ToLower] acts on ASCII text. *)
Definition to_lower (c : ascii) : ascii :=
  let n := char_code c in
  if (65 <=? n) && (n <=? 90) then ascii_of_N (Z.to_N (n + 32)) else c.

Definition lower_string (s : string) : string :=
  string_of_list_ascii (map to_lower (list_ascii_of_string s)).

(** The characters of a 36-character text outside positions 8, 13, 18
    and 23. *)
Definition undashed (cs : list ascii) : list ascii :=
  firstn 8 cs ++ firstn 4 (skipn 9 cs) ++ firstn 4 (skipn 14 cs)
  ++ firstn 4 (skipn 19 cs) ++ skipn 24 cs.

(** The characters that [parseUUID] decodes as hex: all 32 of a text of
    length 32, and those outside positions 8, 13, 18 and 23 otherwise. *)
Definition hex_body (s : string) : list ascii :=
  if (String.length s =? 32)%nat then list_ascii_of_string s
  else undashed (list_ascii_of_string s).

(** A matcher for
    [^[0-9a-f]{8}-[0-9a-f]{4}-[0-9a-f]{4}-[0-9a-f]{4}-[0-9a-f]{12}$]. *)
Fixpoint take_hex (n : nat) (cs : list ascii) : option (list ascii) :=
  match n, cs with
  | O, _ => Some cs
  | S n', c :: cs' => if is_lower_hex c then take_hex n' cs' else None
  | S _, [] => None
  end.

Definition take_dash (cs : list ascii) : option (list ascii) :=
  match cs with
  | c :: cs' => if Ascii.eqb c dash then Some cs' else None
  | [] => None
  end.

Definition and_then {A B : Type} (o : option A) (k : A -> option B) : option B :=
  match o with
  | Some a => k a
  | None => None
  end.

Definition canonical (s : string) : bool :=
  match and_then (and_then (and_then (and_then (and_then (and_then (and_then
          (and_then (take_hex 8 (list_ascii_of_string s)) take_dash)
          (take_hex 4)) take_dash) (take_hex 4)) take_dash) (take_hex 4))
          take_dash) (take_hex 12)
  with
  | Some [] => true
  | _ => false
  end.

(** The big-endian value of a byte sequence. *)
Definition be_value (bs : list Z) : Z :=
  fold_left (fun acc b => acc * 256 + b) bs 0.

(** A JSON string literal of a text that needs no escaping. *)
Definition json_quote (s : string) : string :=
  String "034"%char (s ++ String "034"%char EmptyString).

Definition wf_UUIDv8 (u : UUIDv8) : Prop :=
  is_uint64 (Timestamp u) /\ is_uint16 (ClockSeq u) /\ Forall is_byte (Node u).

Definition supported_width (timestampBits : Z) : Prop :=
  timestampBits = 32 \/ timestampBits = 48 \/ timestampBits = 60.

(** ** Derived forms used in the statements *)

Definition notdash (c : ascii) : bool := negb (Ascii.eqb c dash).

Definition dashes_ok (s : string) : bool :=
  match String.get 8 s, String.get 13 s, String.get 18 s, String.get 23 s with
  | Some c8, Some c13, Some c18, Some c23 =>
      Ascii.eqb c8 dash && Ascii.eqb c13 dash && Ascii.eqb c18 dash
      && Ascii.eqb c23 dash
  | _, _, _, _ => false
  end.

(** The text of a 16-byte buffer: the five groups in hex, dashes between. *)
Definition dashed_hex (b : list Z) : list ascii :=
  hex_chars (firstn 4 b) ++ dash ::
  hex_chars (firstn 2 (skipn 4 b)) ++ dash ::
  hex_chars (firstn 2 (skipn 6 b)) ++ dash ::
  hex_chars (firstn 2 (skipn 8 b)) ++ dash ::
  hex_chars (firstn 6 (skipn 10 b)).

(** Bytes 0 to 5 as [encodeTimestamp] leaves them: its write to byte 6
    at width 60 is overwritten by [NewWithParams]. *)
Definition timestamp_bytes (timestamp timestampBits : Z) : list Z :=
  if timestampBits =? 32 then
    [to_byte (Z.shiftr timestamp 24); to_byte (Z.shiftr timestamp 16);
     to_byte (Z.shiftr timestamp 8); to_byte timestamp; 0; 0]
  else if timestampBits =? 48 then
    [to_byte (Z.shiftr timestamp 40); to_byte (Z.shiftr timestamp 32);
     to_byte (Z.shiftr timestamp 24); to_byte (Z.shiftr timestamp 16);
     to_byte (Z.shiftr timestamp 8); to_byte timestamp]
  else
    [to_byte (Z.shiftr timestamp 52); to_byte (Z.shiftr timestamp 44);
     to_byte (Z.shiftr timestamp 36); to_byte (Z.shiftr timestamp 28);
     to_byte (Z.shiftr timestamp 20); to_byte (Z.shiftr timestamp 12)].

(** Bytes 6 and 7 as [NewWithParams] and [ToString] compute them. *)
Definition clock_hi (clockSeq : Z) : Z :=
  Z.lor (to_byte (Z.shiftl versionV8 4)) (to_byte (Z.shiftr clockSeq 8)).

Definition clock_lo (clockSeq : Z) : Z :=
  Z.lor (Z.land (to_byte clockSeq) 0x3F) (Z.shiftl variantRFC4122 6).

(** The buffer of [NewWithParams] for a node of 6 bytes and a supported
    width. *)
Definition encoded (timestamp clockSeq : Z) (node : list Z) (timestampBits : Z)
  : list Z :=
  timestamp_bytes timestamp timestampBits
  ++ clock_hi clockSeq :: clock_lo clockSeq :: node ++ [0; 0].

(** The fields that the decoder reads from a buffer. *)
Definition decoded (b : list Z) : UUIDv8 :=
  mkUUIDv8 (be_value (firstn 6 b))
           (Z.lor (Z.shiftl (Z.land (nth 6 b 0) 0x0F) 8) (nth 7 b 0))
           (firstn 6 (skipn 8 b)).

(** The part of a timestamp that survives encoding at a width, as the
    decoder reads it back. *)
Definition timestamp_window (timestamp timestampBits : Z) : Z :=
  if timestampBits =? 32 then (timestamp mod 2 ^ 32) * 2 ^ 16
  else if timestampBits =? 48 then timestamp mod 2 ^ 48
  else (timestamp / 2 ^ 12) mod 2 ^ 48.

(** Version and variant bits of a buffer, as [IsValidUUIDv8] tests them. *)
Definition tagged_v8 (b : list Z) : bool :=
  (Z.shiftr (nth 6 b 0) 4 =? versionV8)
  && (Z.land (Z.shiftr (nth 7 b 0) 6) 3 =? variantRFC4122).

(** Bytes 8 to 15 after [copy(uuid[8:], node)]: at most 8 bytes of the
    node, then the zeros of the fresh buffer. *)
Definition node_field (node : list Z) : list Z :=
  firstn 8 node ++ repeat 0 (8 - Nat.min 8 (List.length node)).

(** The dashed text whose 32 hex digits are [h]. *)
Definition redash (h : list ascii) : list ascii :=
  firstn 8 h ++ dash :: firstn 4 (skipn 8 h) ++ dash ::
  firstn 4 (skipn 12 h) ++ dash :: firstn 4 (skipn 16 h) ++ dash :: skipn 20 h.

(** Whether the entropy source supplies at least [n] bytes. *)
Definition supplies (n : nat) (entropy : option (list Z)) : Prop :=
  exists bytes, entropy = Some bytes /\ (n <= List.length bytes)%nat.

(** The kind of an error of [parseUUID], and a result of [parseUUID]
    with the error kept by kind and the bytes beside an error dropped. *)
Definition error_kind (e : parse_error) : error :=
  match e with
  | InvalidUUIDFormat => InvalidFormat
  | InvalidUUIDLength => InvalidLength
  | HexError (InvalidByteError _) => InvalidHexEncoding
  | HexError ErrLength => HexOddLength
  end.

Definition by_kind (r : result (list Z * option parse_error)) : result (list Z) :=
  match r with
  | Err e => Err e
  | Ok (b, None) => Ok b
  | Ok (_, Some e) => Err (error_kind e)
  end.

(** ** Checks by enumeration *)

(** Facts about one byte, one nibble or one [uint16] are decided by
    running a boolean check over all the values. *)

Definition all_bytes : list Z := map Z.of_nat (seq 0 256).

Definition digits_ok (c : Z) : bool :=
  match fromHexChar (digit (Z.shiftr c 4)), fromHexChar (digit (Z.land c 0xF)) with
  | Some a, Some b =>
      (a =? Z.shiftr c 4) && (b =? Z.land c 0xF)
      && (Z.lor (to_byte (Z.shiftl a 4)) b =? c)
      && is_lower_hex (digit (Z.shiftr c 4)) && is_lower_hex (digit (Z.land c 0xF))
  | _, _ => false
  end.

Definition clock_bytes_ok (h : Z) : bool :=
  let hi := Z.lor (to_byte (Z.shiftl versionV8 4)) h in
  let lo := Z.lor (Z.land h 0x3F) (Z.shiftl variantRFC4122 6) in
  (0 <=? hi) && (hi <? 256) && (0 <=? lo) && (lo <? 256)
  && (Z.land (Z.shiftr lo 6) 3 =? variantRFC4122)
  && (Z.shiftr lo 6 =? variantRFC4122)
  && negb (hi =? 0).

Definition clock_decode_ok (b6 : Z) : bool :=
  let h := Z.shiftl (Z.land b6 0x0F) 8 in
  (to_uint16 h =? h) && (h =? Z.land b6 0x0F * 256) && (0 <=? Z.land b6 0x0F)
  && (Z.land b6 0x0F <=? 15).

Fixpoint zrange (n : nat) (start : Z) : list Z :=
  match n with
  | O => []
  | S n' => start :: zrange n' (start + 1)
  end.

Definition all_uint16 : list Z := zrange (Z.to_nat 65536) 0.

Definition clock_facts (cs : Z) : bool :=
  (Z.lor (to_uint16 (Z.shiftl (Z.land (clock_hi cs) 0x0F) 8)) (clock_lo cs)
   =? Z.lor (Z.land cs 0x0F3F) 0x80)
  && (Z.shiftr (clock_hi cs) 4 =? Z.lor 8 (Z.shiftr cs 12))
  && Bool.eqb (clock_hi cs =? clock_hi (cs mod 4096)) (Z.land cs 0x7000 =? 0)
  && (clock_lo cs =? clock_lo (cs mod 4096))
  && Bool.eqb (Z.shiftr (clock_hi cs) 4 =? 8) (Z.land cs 0x7000 =? 0)
  && implb (cs <=? 4095) (Z.land cs 0x7000 =? 0)
  && Bool.eqb (Z.lor (Z.land cs 0x0F3F) 0x80 =? cs)
              ((cs <=? 4095) && (Z.land cs 0xC0 =? 0x80)).

Definition tag_bytes_ok (x : Z) : bool :=
  Bool.eqb (Z.lor (to_byte (Z.shiftl versionV8 4)) (Z.land x 0x0F) =? x)
           (Z.shiftr x 4 =? versionV8)
  && Bool.eqb (Z.lor (Z.land x 0x3F) (Z.shiftl variantRFC4122 6) =? x)
              (Z.land (Z.shiftr x 6) 3 =? variantRFC4122)
  && implb (x =? 0) (negb (Z.shiftr x 4 =? versionV8)).

(** ** Tactics *)

Ltac each_ascii c :=
  destruct c as [[|] [|] [|] [|] [|] [|] [|] [|]].

Ltac explicit16 b H :=
  do 16 (destruct b as [| ? b]; [discriminate H |]);
  destruct b; [| discriminate H].

Ltac next_group :=
  cbn [and_then take_dash];
  replace (Ascii.eqb dash dash) with true by reflexivity;
  cbn [and_then].

Ltac bytes_of H :=
  repeat match type of H with
         | Forall _ (_ :: _) =>
             let Hx := fresh "Hbyte" in
             let H' := fresh "Hrest" in
             apply Forall_cons_iff in H; destruct H as [Hx H']; revert Hx;
             rename H' into H
         end;
  clear H; intros.

(** * Auxiliary lemmas *)

(** ** Values pinned by the repository's tests *)

Example ToString_zero_struct :
  ToString (mkUUIDv8 0 0 [])
  = Ok "00000000-0000-8080-0000-000000000000"%string.
Proof. reflexivity. Qed.

Example IsValidUUIDv8_all_zero :
  IsValidUUIDv8 "00000000-0000-0000-0000-000000000000" = Ok false.
Proof. reflexivity. Qed.

Example IsValidUUIDv8_version_7 :
  IsValidUUIDv8 "9a3d4049-0e2c-7080-0102-030405060000" = Ok false.
Proof. reflexivity. Qed.

Example IsValidUUIDv8_version_9 :
  IsValidUUIDv8 "9a3d4049-0e2c-9080-0102-030405060000" = Ok false.
Proof. reflexivity. Qed.

Example IsValidUUIDv8_malformed : IsValidUUIDv8 "invalid-uuid" = Ok false.
Proof. reflexivity. Qed.

Example FromStringOrNil_valid :
  FromStringOrNil "9a3d4049-0e2c-8080-0102-030405060000"
  = Ok (Some {| Timestamp := 0x9a3d40490e2c; ClockSeq := 0x080;
                Node := [1; 2; 3; 4; 5; 6] |}).
Proof. reflexivity. Qed.

Example FromStringOrNil_all_zero :
  FromStringOrNil "00000000-0000-0000-0000-000000000000" = Ok None.
Proof. reflexivity. Qed.

Example FromStringOrNil_malformed : FromStringOrNil "invalid-uuid" = Ok None.
Proof. reflexivity. Qed.

Example NewWithParams_max_values :
  (s <- NewWithParams (2 ^ 60 - 1) (2 ^ 12 - 1)
          [255; 255; 255; 255; 255; 255] TimestampBits60 ;;
   IsValidUUIDv8 s) = Ok true.
Proof. reflexivity. Qed.

(** The struct of the README's JSON example. *)
Example MarshalJSON_readme_struct :
  MarshalJSON (fun s => Ok (json_quote s))
    (Some {| Timestamp := 123456789; ClockSeq := 0x0800;
             Node := [1; 2; 3; 4; 5; 6] |})
  = Ok (json_quote "0000075b-cd15-8880-0102-030405060000").
Proof. reflexivity. Qed.

Example Scan_then_ToString :
  (u <- FromString "9a3d4049-0e2c-8080-0102-030405060000" ;; ToString u)
  = Ok "9a3d4049-0e2c-8080-0102-030405060000"%string.
Proof. reflexivity. Qed.

(** ** Bytes and characters by enumeration *)

Lemma forallb_bytes (f : Z -> bool) :
  forallb f all_bytes = true -> forall c, is_byte c -> f c = true.
Proof.
  intros H c Hc. rewrite forallb_forall in H. apply H.
  apply in_map_iff. exists (Z.to_nat c). unfold is_byte in Hc.
  split; [lia |]. apply in_seq. lia.
Qed.

Lemma to_byte_range x : is_byte (to_byte x).
Proof. unfold is_byte, to_byte. apply Z.mod_pos_bound. reflexivity. Qed.

Lemma digits_of_byte c :
  is_byte c ->
  fromHexChar (digit (Z.shiftr c 4)) = Some (Z.shiftr c 4)
  /\ fromHexChar (digit (Z.land c 0xF)) = Some (Z.land c 0xF)
  /\ Z.lor (to_byte (Z.shiftl (Z.shiftr c 4) 4)) (Z.land c 0xF) = c
  /\ is_lower_hex (digit (Z.shiftr c 4)) = true
  /\ is_lower_hex (digit (Z.land c 0xF)) = true.
Proof.
  intros Hc. pose proof (forallb_bytes digits_ok eq_refl c Hc) as H.
  unfold digits_ok in H.
  destruct (fromHexChar (digit (Z.shiftr c 4))) as [a|]; [| discriminate].
  destruct (fromHexChar (digit (Z.land c 0xF))) as [b|]; [| discriminate].
  rewrite !andb_true_iff in H. destruct H as [[[[Ha Hb] Hab] H1] H2].
  apply Z.eqb_eq in Ha, Hb, Hab. subst a b. auto.
Qed.

Lemma lower_hex_not_dash c : is_lower_hex c = true -> Ascii.eqb c dash = false.
Proof. each_ascii c; intros H; try reflexivity; discriminate H. Qed.

Lemma hex_digit_not_dash c : is_hex_digit c = true -> Ascii.eqb c dash = false.
Proof. each_ascii c; intros H; try reflexivity; discriminate H. Qed.

Lemma fromHexChar_is_hex c :
  is_hex_digit c = match fromHexChar c with Some _ => true | None => false end.
Proof. each_ascii c; reflexivity. Qed.

Lemma fromHexChar_lower c : fromHexChar (to_lower c) = fromHexChar c.
Proof. each_ascii c; reflexivity. Qed.

Lemma to_lower_dash c : Ascii.eqb (to_lower c) dash = Ascii.eqb c dash.
Proof. each_ascii c; reflexivity. Qed.

Lemma fromHexChar_digit c a :
  fromHexChar c = Some a -> 0 <= a < 16 /\ digit a = to_lower c.
Proof.
  each_ascii c; intros H; try discriminate H;
    injection H as <-; (split; [lia | reflexivity]).
Qed.

Lemma nibble_cases a :
  0 <= a < 16 -> In a (map Z.of_nat (seq 0 16)).
Proof.
  intros H. apply in_map_iff. exists (Z.to_nat a).
  split; [lia |]. apply in_seq. lia.
Qed.

Lemma nibbles_to_byte a b :
  0 <= a < 16 -> 0 <= b < 16 ->
  let v := Z.lor (to_byte (Z.shiftl a 4)) b in
  is_byte v /\ Z.shiftr v 4 = a /\ Z.land v 0xF = b.
Proof.
  intros Ha Hb. apply nibble_cases in Ha, Hb. cbn [map seq] in Ha, Hb.
  repeat (destruct Ha as [<- | Ha]; [| try contradiction]);
    repeat (destruct Hb as [<- | Hb]; [| try contradiction]);
    vm_compute; intuition discriminate.
Qed.

(** ** Hex decoding and printing *)

Lemma pair_ind (P : list ascii -> Prop) :
  P [] -> (forall p, P [p]) -> (forall p q l, P l -> P (p :: q :: l)) ->
  forall l, P l.
Proof.
  intros H0 H1 H2 l.
  assert (H : P l /\ forall p, P (p :: l)).
  { induction l as [| q l [IH IH']]; split; auto. }
  apply H.
Qed.

Lemma hex_Decode_hex_chars bs :
  Forall is_byte bs -> hex_Decode (hex_chars bs) = Ok bs.
Proof.
  induction 1 as [| c bs Hc _ IH]; [reflexivity |].
  destruct (digits_of_byte c Hc) as (H1 & H2 & H3 & _).
  change (hex_chars (c :: bs))
    with (digit (Z.shiftr c 4) :: digit (Z.land c 0xF) :: hex_chars bs).
  cbn [hex_Decode]. rewrite H1, H2, IH. cbn [bind]. now rewrite H3.
Qed.

Lemma hex_Decode_lower l : hex_Decode (map to_lower l) = hex_Decode l.
Proof.
  induction l as [| p | p q l IH] using pair_ind; cbn [map hex_Decode].
  - reflexivity.
  - now rewrite fromHexChar_lower.
  - now rewrite !fromHexChar_lower, IH.
Qed.

Lemma hex_Decode_ok l :
  Nat.even (List.length l) = true -> forallb is_hex_digit l = true ->
  exists bs, hex_Decode l = Ok bs /\ List.length l = (2 * List.length bs)%nat
             /\ Forall is_byte bs /\ hex_chars bs = map to_lower l.
Proof.
  induction l as [| p | p q l IH] using pair_ind; intros Hev Hhex.
  - exists []. repeat split; constructor.
  - discriminate Hev.
  - cbn [forallb] in Hhex. rewrite !andb_true_iff in Hhex.
    destruct Hhex as (Hp & Hq & Hl).
    destruct (IH Hev Hl) as (bs & Hbs & Hlen & Hby & Hch).
    rewrite fromHexChar_is_hex in Hp, Hq. cbn [hex_Decode].
    destruct (fromHexChar p) as [a|] eqn:Ea; [| discriminate].
    destruct (fromHexChar q) as [b|] eqn:Eb; [| discriminate].
    destruct (fromHexChar_digit _ _ Ea) as [Ra Da].
    destruct (fromHexChar_digit _ _ Eb) as [Rb Db].
    destruct (nibbles_to_byte a b Ra Rb) as (Hv & Hhi & Hlo).
    rewrite Hbs. cbn [bind]. eexists. split; [reflexivity |].
    repeat split.
    + cbn [List.length]. lia.
    + constructor; assumption.
    + change (hex_chars (?c :: bs))
        with (digit (Z.shiftr c 4) :: digit (Z.land c 0xF) :: hex_chars bs).
      rewrite Hhi, Hlo, Da, Db, Hch. reflexivity.
Qed.

Lemma hex_Decode_bad l :
  Nat.even (List.length l) = true -> forallb is_hex_digit l = false ->
  hex_Decode l = Err InvalidHexEncoding.
Proof.
  induction l as [| p | p q l IH] using pair_ind; intros Hev Hhex.
  - discriminate Hhex.
  - discriminate Hev.
  - cbn [forallb] in Hhex. cbn [hex_Decode].
    rewrite !fromHexChar_is_hex in Hhex.
    destruct (fromHexChar p) as [a|]; [| reflexivity].
    destruct (fromHexChar q) as [b|]; [| reflexivity].
    cbn [andb] in Hhex. rewrite (IH Hev Hhex). reflexivity.
Qed.

Lemma hex_chars_app l1 l2 : hex_chars (l1 ++ l2) = hex_chars l1 ++ hex_chars l2.
Proof. unfold hex_chars. apply flat_map_app. Qed.

Lemma hex_chars_length bs : List.length (hex_chars bs) = (2 * List.length bs)%nat.
Proof.
  induction bs as [| c bs IH]; [reflexivity |].
  change (hex_chars (c :: bs))
    with (digit (Z.shiftr c 4) :: digit (Z.land c 0xF) :: hex_chars bs).
  cbn [List.length]. lia.
Qed.

Lemma hex_chars_lower bs :
  Forall is_byte bs -> forallb is_lower_hex (hex_chars bs) = true.
Proof.
  induction 1 as [| c bs Hc _ IH]; [reflexivity |].
  destruct (digits_of_byte c Hc) as (_ & _ & _ & H1 & H2).
  change (hex_chars (c :: bs))
    with (digit (Z.shiftr c 4) :: digit (Z.land c 0xF) :: hex_chars bs).
  cbn [forallb]. now rewrite H1, H2, IH.
Qed.

(** ** Strings as character lists *)

Lemma length_chars s : List.length (list_ascii_of_string s) = String.length s.
Proof. induction s as [| c s IH]; cbn; congruence. Qed.

Lemma get_chars s n : String.get n s = nth_error (list_ascii_of_string s) n.
Proof.
  revert n; induction s as [| c s IH]; intros [| n]; cbn; auto.
Qed.

(** ** The dash-stripping loop *)

Lemma update_char_length res j c :
  List.length (update_char res j c) = List.length res.
Proof.
  revert j; induction res as [| x res IH]; intros [| j]; cbn; auto.
Qed.

Lemma firstn_update_char res j c :
  (j < List.length res)%nat ->
  firstn (S j) (update_char res j c) = firstn j res ++ [c].
Proof.
  revert j; induction res as [| x res IH]; intros [| j] H; cbn in *;
    try lia; [reflexivity |].
  f_equal. apply IH. lia.
Qed.

Lemma skipn_update_char res j k c :
  (j < k)%nat -> skipn k (update_char res j c) = skipn k res.
Proof.
  revert j k; induction res as [| x res IH]; intros [| j] [| k] H; cbn;
    try lia; try reflexivity.
  apply IH. lia.
Qed.

Lemma removeDashes_spec s : forall res j,
  (j + List.length (filter notdash s) <= List.length res)%nat ->
  removeDashes s res j
  = Ok (firstn j res ++ filter notdash s
        ++ skipn (j + List.length (filter notdash s)) res).
Proof.
  induction s as [| c s IH]; intros res j H; cbn [removeDashes filter].
  - cbn. rewrite Nat.add_0_r, firstn_skipn. reflexivity.
  - cbn [filter] in H. unfold notdash in *.
    destruct (Ascii.eqb c dash); cbn [negb] in *.
    + apply IH, H.
    + cbn [List.length] in H.
      replace (j <? List.length res)%nat with true
        by (symmetry; apply Nat.ltb_lt; lia).
      rewrite IH by (rewrite update_char_length; lia).
      rewrite firstn_update_char by lia.
      rewrite skipn_update_char by lia.
      rewrite <- app_assoc. cbn [List.length app].
      now rewrite Nat.add_succ_r.
Qed.

Lemma removeDashes_map (f : ascii -> ascii) s :
  (forall c, Ascii.eqb (f c) dash = Ascii.eqb c dash) ->
  forall res j,
  removeDashes (map f s) (map f res) j
  = match removeDashes s res j with
    | Ok r => Ok (map f r)
    | Err e => Err e
    end.
Proof.
  intros Hf. induction s as [| c s IH]; intros res j; cbn [map removeDashes].
  - reflexivity.
  - rewrite Hf, length_map. destruct (Ascii.eqb c dash); [apply IH |].
    destruct (j <? List.length res)%nat; [| reflexivity].
    rewrite <- IH. f_equal.
    clear. revert j; induction res as [| x res IH]; intros [| j]; cbn;
      try reflexivity. now rewrite IH.
Qed.

Lemma filter_notdash_hex l :
  forallb is_hex_digit l = true -> filter notdash l = l.
Proof.
  induction l as [| c l IH]; [reflexivity |]. cbn [forallb filter].
  rewrite andb_true_iff. intros [Hc Hl]. unfold notdash at 1.
  rewrite (hex_digit_not_dash c Hc). cbn [negb]. now rewrite IH.
Qed.

Lemma filter_length_bound (f : ascii -> bool) l :
  (List.length (filter f l) <= List.length l)%nat.
Proof.
  induction l as [| c l IH]; cbn; [lia |]. destruct (f c); cbn; lia.
Qed.

Lemma skipn_repeat_zero (n k : nat) :
  skipn k (repeat zero n) = repeat zero (n - k).
Proof.
  revert k; induction n as [| n IH]; intros [| k]; cbn; auto.
Qed.

(** Stripping the dashes of a text with a character that is not a hex
    digit leaves a scratch buffer with such a character: the character
    itself, or the zero padding that a stripped dash leaves behind. *)
Lemma scratch_not_hex l : forall n,
  (List.length l <= n)%nat -> forallb is_hex_digit l = false ->
  forallb is_hex_digit
    (filter notdash l ++ repeat zero (n - List.length (filter notdash l)))
  = false.
Proof.
  induction l as [| c l IH]; intros n Hn H; [discriminate H |].
  cbn [forallb filter List.length] in *.
  destruct (is_hex_digit c) eqn:Hc.
  - assert (Hd : notdash c = true)
      by (unfold notdash; now rewrite (hex_digit_not_dash c Hc)).
    rewrite Hd. cbn [app forallb List.length]. rewrite Hc. cbn [andb] in *.
    destruct n as [| n]; [lia |]. apply IH; [lia | exact H].
  - destruct (notdash c).
    + cbn [app forallb]. now rewrite Hc.
    + pose proof (filter_length_bound notdash l) as Hle.
      destruct (n - List.length (filter notdash l))%nat as [| k] eqn:Ek; [lia |].
      rewrite forallb_app. cbn [repeat forallb].
      replace (is_hex_digit zero) with false by reflexivity.
      cbn [andb]. apply andb_false_r.
Qed.

(** ** [parseUUID] *)

Lemma split36 cs :
  List.length cs = 36%nat ->
  nth_error cs 8 = Some dash -> nth_error cs 13 = Some dash ->
  nth_error cs 18 = Some dash -> nth_error cs 23 = Some dash ->
  exists a b c d e,
    cs = a ++ dash :: b ++ dash :: c ++ dash :: d ++ dash :: e
    /\ undashed cs = a ++ b ++ c ++ d ++ e
    /\ List.length (a ++ b ++ c ++ d ++ e) = 32%nat.
Proof.
  intros Hlen H8 H13 H18 H23.
  do 36 (destruct cs as [| ? cs]; [discriminate Hlen |]).
  destruct cs; [| discriminate Hlen].
  cbn in H8, H13, H18, H23.
  injection H8 as ->. injection H13 as ->.
  injection H18 as ->. injection H23 as ->.
  eexists [_; _; _; _; _; _; _; _], [_; _; _; _], [_; _; _; _], [_; _; _; _],
    [_; _; _; _; _; _; _; _; _; _; _; _].
  repeat split.
Qed.

Lemma filter_notdash_dash l : filter notdash (dash :: l) = filter notdash l.
Proof. reflexivity. Qed.

Lemma filter_notdash_36 cs :
  List.length cs = 36%nat ->
  nth_error cs 8 = Some dash -> nth_error cs 13 = Some dash ->
  nth_error cs 18 = Some dash -> nth_error cs 23 = Some dash ->
  filter notdash cs = filter notdash (undashed cs)
  /\ List.length (undashed cs) = 32%nat.
Proof.
  intros Hlen H8 H13 H18 H23.
  destruct (split36 cs Hlen H8 H13 H18 H23) as (a & b & c & d & e & Hcs & Hu & Hl).
  rewrite Hu. split; [| exact Hl]. rewrite Hcs.
  repeat (rewrite ?filter_app, ?filter_notdash_dash). reflexivity.
Qed.

Lemma parseUUID_32 s :
  String.length s = 32%nat -> parseUUID s = hex_Decode (list_ascii_of_string s).
Proof.
  intros H. unfold parseUUID. rewrite length_chars, H. reflexivity.
Qed.

Lemma parseUUID_other s :
  String.length s <> 32%nat -> String.length s <> 36%nat ->
  parseUUID s = Err InvalidLength.
Proof.
  intros H1 H2. unfold parseUUID. rewrite length_chars.
  apply Nat.eqb_neq in H1, H2. now rewrite H1, H2.
Qed.

Lemma chars_at_36 (cs : list ascii) i :
  List.length cs = 36%nat -> (i < 36)%nat -> exists c, nth_error cs i = Some c.
Proof.
  intros H Hi. destruct (nth_error cs i) eqn:E; [eauto |].
  apply nth_error_None in E. lia.
Qed.

Lemma parseUUID_bad_dashes s :
  String.length s = 36%nat -> dashes_ok s = false ->
  parseUUID s = Err InvalidFormat.
Proof.
  intros H Hd. unfold parseUUID, dashes_ok in *.
  rewrite !get_chars in Hd. rewrite <- length_chars in H.
  set (cs := list_ascii_of_string s) in *. rewrite H. cbn [Nat.eqb].
  unfold char_at.
  destruct (chars_at_36 cs 8 H ltac:(lia)) as [c8 E8].
  destruct (chars_at_36 cs 13 H ltac:(lia)) as [c13 E13].
  destruct (chars_at_36 cs 18 H ltac:(lia)) as [c18 E18].
  destruct (chars_at_36 cs 23 H ltac:(lia)) as [c23 E23].
  rewrite E8, E13, E18, E23 in *. cbn [bind].
  destruct (Ascii.eqb c8 dash); [| reflexivity].
  destruct (Ascii.eqb c13 dash); [| reflexivity].
  destruct (Ascii.eqb c18 dash); [| reflexivity].
  destruct (Ascii.eqb c23 dash); [discriminate Hd | reflexivity].
Qed.

Lemma dashes_ok_nth s :
  dashes_ok s = true ->
  let cs := list_ascii_of_string s in
  nth_error cs 8 = Some dash /\ nth_error cs 13 = Some dash
  /\ nth_error cs 18 = Some dash /\ nth_error cs 23 = Some dash.
Proof.
  unfold dashes_ok. rewrite !get_chars. cbv zeta.
  set (cs := list_ascii_of_string s).
  destruct (nth_error cs 8) as [c8|]; [| discriminate].
  destruct (nth_error cs 13) as [c13|]; [| discriminate].
  destruct (nth_error cs 18) as [c18|]; [| discriminate].
  destruct (nth_error cs 23) as [c23|]; [| discriminate].
  rewrite !andb_true_iff, !Ascii.eqb_eq. intros [[[-> ->] ->] ->]. auto.
Qed.

(** With the four dashes in place the loop leaves the 32 characters
    that are not dashes, padded with the zero bytes of the fresh buffer,
    and never writes past it. *)
Lemma parseUUID_36 s :
  String.length s = 36%nat -> dashes_ok s = true ->
  let body := undashed (list_ascii_of_string s) in
  parseUUID s
  = hex_Decode (filter notdash body
                ++ repeat zero (32 - List.length (filter notdash body))).
Proof.
  intros H Hd. destruct (dashes_ok_nth s Hd) as (E8 & E13 & E18 & E23).
  cbv zeta. unfold parseUUID. rewrite <- length_chars in H.
  set (cs := list_ascii_of_string s) in *. rewrite H. cbn [Nat.eqb].
  unfold char_at. rewrite E8, E13, E18, E23. cbn [bind].
  replace (Ascii.eqb dash dash) with true by reflexivity. cbn [negb].
  destruct (filter_notdash_36 cs H E8 E13 E18 E23) as [Hf Hl].
  pose proof (filter_length_bound notdash (undashed cs)) as Hb.
  rewrite Hl in Hb.
  rewrite removeDashes_spec by (rewrite repeat_length, Hf; lia).
  cbn [bind firstn app Nat.add]. unfold hex_DecodeString.
  rewrite list_ascii_of_string_of_list_ascii, skipn_repeat_zero, Hf.
  reflexivity.
Qed.

(** ** [formatUUID] *)

Lemma formatUUID_16 b :
  List.length b = 16%nat ->
  formatUUID b = Ok (string_of_list_ascii (dashed_hex b)).
Proof. intros H. explicit16 b H. reflexivity. Qed.

Lemma dashed_hex_shape b :
  List.length b = 16%nat ->
  List.length (dashed_hex b) = 36%nat
  /\ nth_error (dashed_hex b) 8 = Some dash
  /\ nth_error (dashed_hex b) 13 = Some dash
  /\ nth_error (dashed_hex b) 18 = Some dash
  /\ nth_error (dashed_hex b) 23 = Some dash
  /\ undashed (dashed_hex b) = hex_chars b.
Proof. intros H. explicit16 b H. repeat split. Qed.

Lemma Forall_firstn_skipn (P : Z -> Prop) n l :
  Forall P l -> Forall P (firstn n l) /\ Forall P (skipn n l).
Proof.
  intros H. rewrite <- (firstn_skipn n l) in H. now apply Forall_app in H.
Qed.

Lemma take_hex_app l rest :
  forallb is_lower_hex l = true -> take_hex (List.length l) (l ++ rest) = Some rest.
Proof.
  induction l as [| c l IH]; [reflexivity |]. cbn [forallb].
  rewrite andb_true_iff. intros [Hc Hl]. cbn [List.length app take_hex].
  rewrite Hc. auto.
Qed.

Lemma take_hex_group n bs rest :
  List.length bs = n -> Forall is_byte bs ->
  take_hex (2 * n) (hex_chars bs ++ rest) = Some rest.
Proof.
  intros Hn Hb. rewrite <- Hn, <- hex_chars_length.
  apply take_hex_app, hex_chars_lower, Hb.
Qed.

Lemma dashed_hex_canonical b :
  List.length b = 16%nat -> Forall is_byte b ->
  canonical (string_of_list_ascii (dashed_hex b)) = true.
Proof.
  intros Hl Hb. unfold canonical, dashed_hex.
  rewrite list_ascii_of_string_of_list_ascii.
  pose proof (Forall_firstn_skipn is_byte 4 b Hb) as [H0 _].
  pose proof (Forall_firstn_skipn is_byte 4 b Hb) as [_ H4].
  pose proof (Forall_firstn_skipn is_byte 6 b Hb) as [_ H6].
  pose proof (Forall_firstn_skipn is_byte 8 b Hb) as [_ H8].
  pose proof (Forall_firstn_skipn is_byte 10 b Hb) as [_ H10].
  apply (Forall_firstn_skipn is_byte 2) in H4, H6, H8.
  apply (Forall_firstn_skipn is_byte 6) in H10.
  destruct H4 as [H4 _], H6 as [H6 _], H8 as [H8 _], H10 as [H10 _].
  rewrite (take_hex_group 4) by (rewrite ?length_firstn, ?length_skipn; auto; lia).
  next_group.
  rewrite (take_hex_group 2) by (rewrite ?length_firstn, ?length_skipn; auto; lia).
  next_group.
  rewrite (take_hex_group 2) by (rewrite ?length_firstn, ?length_skipn; auto; lia).
  next_group.
  rewrite (take_hex_group 2) by (rewrite ?length_firstn, ?length_skipn; auto; lia).
  next_group.
  rewrite <- (app_nil_r (hex_chars (firstn 6 (skipn 10 b)))).
  rewrite (take_hex_group 6) by (rewrite ?length_firstn, ?length_skipn; auto; lia).
  reflexivity.
Qed.

Lemma lower_hex_is_hex l :
  forallb is_lower_hex l = true -> forallb is_hex_digit l = true.
Proof.
  induction l as [| c l IH]; [reflexivity |]. cbn [forallb].
  rewrite !andb_true_iff. intros [Hc Hl]. split; [| auto].
  unfold is_hex_digit. now rewrite Hc.
Qed.

(** Parsing the text of a buffer gives the buffer back. *)
Lemma parse_dashed_hex b :
  List.length b = 16%nat -> Forall is_byte b ->
  parseUUID (string_of_list_ascii (dashed_hex b)) = Ok b.
Proof.
  intros Hl Hb.
  destruct (dashed_hex_shape b Hl) as (L & E8 & E13 & E18 & E23 & Hu).
  rewrite parseUUID_36.
  - cbv zeta. rewrite list_ascii_of_string_of_list_ascii, Hu.
    rewrite filter_notdash_hex by apply lower_hex_is_hex, hex_chars_lower, Hb.
    rewrite hex_chars_length, Hl. cbn [Nat.mul Nat.add Nat.sub repeat].
    rewrite app_nil_r. apply hex_Decode_hex_chars, Hb.
  - rewrite <- length_chars, list_ascii_of_string_of_list_ascii. exact L.
  - unfold dashes_ok. rewrite !get_chars, list_ascii_of_string_of_list_ascii.
    rewrite E8, E13, E18, E23. reflexivity.
Qed.

(** ** The encoder *)

Lemma NewWithParams_uuid_ok timestamp clockSeq node timestampBits :
  List.length node = 6%nat -> supported_width timestampBits ->
  NewWithParams_uuid timestamp clockSeq node timestampBits
  = Ok (timestamp_bytes timestamp timestampBits
        ++ clock_hi clockSeq :: clock_lo clockSeq :: node ++ [0; 0]).
Proof.
  intros Hn Hw.
  do 6 (destruct node as [| ? node]; [discriminate Hn |]).
  destruct node; [| discriminate Hn].
  destruct Hw as [-> | [-> | ->]]; reflexivity.
Qed.

Lemma NewWithParams_uuid_inv timestamp clockSeq node timestampBits b :
  NewWithParams_uuid timestamp clockSeq node timestampBits = Ok b ->
  List.length node = 6%nat /\ supported_width timestampBits.
Proof.
  unfold NewWithParams_uuid, supported_width.
  destruct (List.length node =? 6)%nat eqn:En; [| discriminate].
  apply Nat.eqb_eq in En. cbn [negb]. unfold encodeTimestamp.
  destruct (timestampBits =? TimestampBits32) eqn:E32;
    [apply Z.eqb_eq in E32; auto |].
  destruct (timestampBits =? TimestampBits48) eqn:E48;
    [apply Z.eqb_eq in E48; auto |].
  destruct (timestampBits =? TimestampBits60) eqn:E60;
    [apply Z.eqb_eq in E60; auto |].
  discriminate.
Qed.

Lemma timestamp_bytes_shape timestamp timestampBits :
  List.length (timestamp_bytes timestamp timestampBits) = 6%nat
  /\ Forall is_byte (timestamp_bytes timestamp timestampBits).
Proof.
  unfold timestamp_bytes.
  destruct (timestampBits =? 32); [| destruct (timestampBits =? 48)];
    (split; [reflexivity |]);
    repeat constructor; try apply to_byte_range; unfold is_byte; lia.
Qed.

Lemma clock_bytes_shape clockSeq :
  is_byte (clock_hi clockSeq) /\ is_byte (clock_lo clockSeq)
  /\ Z.land (Z.shiftr (clock_lo clockSeq) 6) 3 = variantRFC4122
  /\ Z.shiftr (clock_lo clockSeq) 6 = variantRFC4122
  /\ clock_hi clockSeq <> 0.
Proof.
  pose proof (forallb_bytes clock_bytes_ok eq_refl _
                (to_byte_range (Z.shiftr clockSeq 8))) as H1.
  pose proof (forallb_bytes clock_bytes_ok eq_refl _
                (to_byte_range clockSeq)) as H2.
  unfold clock_bytes_ok in H1, H2. cbv zeta in H1, H2.
  rewrite !andb_true_iff in H1, H2.
  destruct H1 as [[[[[[A1 A2] _] _] _] _] A3], H2 as [[[[[_ B1] B2] B3] B4] _].
  unfold clock_hi, clock_lo, is_byte.
  apply negb_true_iff, Z.eqb_neq in A3. apply Z.eqb_eq in B3, B4.
  repeat split; try assumption; lia.
Qed.

Lemma encoder_buffer_shape timestamp clockSeq node timestampBits b :
  Forall is_byte node ->
  NewWithParams_uuid timestamp clockSeq node timestampBits = Ok b ->
  List.length b = 16%nat /\ Forall is_byte b.
Proof.
  intros Hnode Hb.
  destruct (NewWithParams_uuid_inv _ _ _ _ _ Hb) as [Hn Hw].
  rewrite (NewWithParams_uuid_ok _ _ _ _ Hn Hw) in Hb. injection Hb as <-.
  destruct (timestamp_bytes_shape timestamp timestampBits) as [Ht Hf].
  destruct (clock_bytes_shape clockSeq) as (Hhi & Hlo & _).
  split.
  - rewrite length_app. cbn [List.length]. rewrite length_app, Ht, Hn. reflexivity.
  - apply Forall_app. split; [exact Hf |].
    constructor; [exact Hhi |]. constructor; [exact Hlo |].
    apply Forall_app. split; [exact Hnode |].
    constructor; [| constructor; [| constructor]]; unfold is_byte; lia.
Qed.

(** ** Bit-level facts about the fields *)

Lemma uint64_shifted_byte x k :
  0 <= k <= 56 -> to_uint64 (Z.shiftl (to_byte x) k) = Z.shiftl (to_byte x) k.
Proof. intros H. unfold to_uint64, to_byte. Z.bitblast. Qed.

Lemma lor_next_byte ts k k' m m' :
  0 <= k -> 0 <= m -> k' = k + 8 -> m' = m + 8 ->
  Z.lor (Z.shiftl (Z.shiftr ts k' mod 2 ^ m) k')
        (Z.shiftl (to_byte (Z.shiftr ts k)) k)
  = Z.shiftl (Z.shiftr ts k mod 2 ^ m') k.
Proof. intros Hk Hm -> ->. unfold to_byte. Z.bitblast. Qed.

(** Reading back the six bytes written at width 48 gives the low 48
    bits of the timestamp. *)
Lemma timestamp48_roundtrip ts :
  Z.lor (Z.lor (Z.lor (Z.lor (Z.lor
    (to_uint64 (Z.shiftl (to_byte (Z.shiftr ts 40)) 40))
    (to_uint64 (Z.shiftl (to_byte (Z.shiftr ts 32)) 32)))
    (to_uint64 (Z.shiftl (to_byte (Z.shiftr ts 24)) 24)))
    (to_uint64 (Z.shiftl (to_byte (Z.shiftr ts 16)) 16)))
    (to_uint64 (Z.shiftl (to_byte (Z.shiftr ts 8)) 8)))
    (to_byte ts)
  = ts mod 2 ^ 48.
Proof.
  rewrite !uint64_shifted_byte by lia.
  unfold to_byte at 1.
  rewrite (lor_next_byte ts 32 40 8 16) by lia.
  rewrite (lor_next_byte ts 24 32 16 24) by lia.
  rewrite (lor_next_byte ts 16 24 24 32) by lia.
  rewrite (lor_next_byte ts 8 16 32 40) by lia.
  change (to_byte ts) with (Z.shiftl (to_byte (Z.shiftr ts 0)) 0).
  rewrite (lor_next_byte ts 0 8 40 48) by lia.
  reflexivity.
Qed.

Lemma byte_of_be_value b0 b1 b2 b3 b4 b5 :
  is_byte b0 -> is_byte b1 -> is_byte b2 -> is_byte b3 -> is_byte b4 ->
  is_byte b5 ->
  let ts := be_value [b0; b1; b2; b3; b4; b5] in
  0 <= ts < 2 ^ 48
  /\ to_byte (Z.shiftr ts 40) = b0 /\ to_byte (Z.shiftr ts 32) = b1
  /\ to_byte (Z.shiftr ts 24) = b2 /\ to_byte (Z.shiftr ts 16) = b3
  /\ to_byte (Z.shiftr ts 8) = b4 /\ to_byte ts = b5.
Proof.
  unfold is_byte, to_byte, be_value. cbn [fold_left]. intros.
  rewrite !Z.shiftr_div_pow2 by lia.
  change (2 ^ 48) with 281474976710656. change (2 ^ 40) with 1099511627776.
  change (2 ^ 32) with 4294967296. change (2 ^ 24) with 16777216.
  change (2 ^ 16) with 65536. change (2 ^ 8) with 256 in *.
  repeat split; try lia; Z.div_mod_to_equations; lia.
Qed.

(** The decoder's timestamp expression is the big-endian value of bytes
    0 to 5; the [uint64] shifts do not wrap. *)
Lemma decode_timestamp_be b0 b1 b2 b3 b4 b5 :
  is_byte b0 -> is_byte b1 -> is_byte b2 -> is_byte b3 -> is_byte b4 ->
  is_byte b5 ->
  Z.lor (Z.lor (Z.lor (Z.lor (Z.lor
    (to_uint64 (Z.shiftl b0 40)) (to_uint64 (Z.shiftl b1 32)))
    (to_uint64 (Z.shiftl b2 24))) (to_uint64 (Z.shiftl b3 16)))
    (to_uint64 (Z.shiftl b4 8))) b5
  = be_value [b0; b1; b2; b3; b4; b5].
Proof.
  intros H0 H1 H2 H3 H4 H5.
  destruct (byte_of_be_value b0 b1 b2 b3 b4 b5 H0 H1 H2 H3 H4 H5)
    as (Hr & E0 & E1 & E2 & E3 & E4 & E5).
  remember (be_value [b0; b1; b2; b3; b4; b5]) as ts eqn:Hts.
  pose proof (timestamp48_roundtrip ts) as R.
  rewrite E0, E1, E2, E3, E4, E5 in R. rewrite R.
  apply Z.mod_small, Hr.
Qed.

Lemma lor_shiftl_add hi lo k :
  0 <= k -> 0 <= lo < 2 ^ k -> Z.lor (Z.shiftl hi k) lo = hi * 2 ^ k + lo.
Proof.
  intros Hk Hlo. rewrite <- Z.shiftl_mul_pow2 by lia. apply Z.or_to_plus.
  apply Z.bits_inj'. intros n Hn.
  rewrite Z.land_spec, Z.bits_0, Z.shiftl_spec by lia.
  destruct (Z.ltb_spec n k).
  - rewrite Z.testbit_neg_r by lia. reflexivity.
  - rewrite <- (Z.mod_small lo (2 ^ k)) by lia.
    rewrite Z.mod_pow2_bits_high by lia. apply andb_false_r.
Qed.

(** The decoder's clock-sequence expression: the [uint16] shift does not
    wrap and the result has 12 bits. *)
Lemma decode_clock_seq b6 b7 :
  is_byte b6 -> is_byte b7 ->
  let clockSeq := Z.lor (to_uint16 (Z.shiftl (Z.land b6 0x0F) 8)) b7 in
  clockSeq = Z.lor (Z.shiftl (Z.land b6 0x0F) 8) b7
  /\ clockSeq = Z.land b6 0x0F * 256 + b7
  /\ 0 <= clockSeq <= 4095.
Proof.
  intros H6 H7. cbv zeta.
  pose proof (forallb_bytes clock_decode_ok eq_refl b6 H6) as H.
  unfold clock_decode_ok in H. cbv zeta in H. rewrite !andb_true_iff in H.
  destruct H as [[[A B] C] D].
  apply Z.eqb_eq in A, B. apply Z.leb_le in C, D. rewrite A.
  rewrite (lor_shiftl_add _ b7 8) by (unfold is_byte in H7; lia).
  unfold is_byte in H7. change (2 ^ 8) with 256 in *. repeat split; lia.
Qed.

(** ** Clock-sequence bytes, by enumeration of [uint16] *)

Lemma in_zrange n : forall start x,
  start <= x < start + Z.of_nat n -> In x (zrange n start).
Proof.
  induction n as [| n IH]; intros start x H; [lia |].
  cbn [zrange]. destruct (Z.eq_dec start x) as [-> | Hne]; [now left |].
  right. apply IH. lia.
Qed.

Lemma forallb_uint16 (f : Z -> bool) :
  forallb f all_uint16 = true -> forall c, is_uint16 c -> f c = true.
Proof.
  intros H c Hc. rewrite forallb_forall in H. apply H.
  apply in_zrange. unfold is_uint16 in Hc.
  rewrite Z2Nat.id by lia. change (2 ^ 16) with 65536 in Hc. lia.
Qed.

Lemma clock_facts_all : forallb clock_facts all_uint16 = true.
Proof. vm_cast_no_check (eq_refl true). Qed.

Lemma clock_roundtrip cs :
  is_uint16 cs ->
  Z.lor (to_uint16 (Z.shiftl (Z.land (clock_hi cs) 0x0F) 8)) (clock_lo cs)
  = Z.lor (Z.land cs 0x0F3F) 0x80.
Proof.
  intros H. pose proof (forallb_uint16 _ clock_facts_all cs H) as F.
  unfold clock_facts in F. rewrite !andb_true_iff in F.
  destruct F as [[[[[[F _] _] _] _] _] _]. now apply Z.eqb_eq in F.
Qed.

Lemma clock_roundtrip_exact cs :
  is_uint16 cs ->
  Z.lor (Z.land cs 0x0F3F) 0x80 = cs <-> cs <= 4095 /\ Z.land cs 0xC0 = 0x80.
Proof.
  intros H. pose proof (forallb_uint16 _ clock_facts_all cs H) as F.
  unfold clock_facts in F. rewrite !andb_true_iff in F.
  destruct F as [_ F]. apply Bool.eqb_prop in F.
  rewrite <- Z.eqb_eq, F, andb_true_iff, Z.leb_le, Z.eqb_eq. reflexivity.
Qed.

Lemma version_nibble cs :
  is_uint16 cs ->
  Z.shiftr (clock_hi cs) 4 = Z.lor 8 (Z.shiftr cs 12)
  /\ (Z.shiftr (clock_hi cs) 4 = 8 <-> Z.land cs 0x7000 = 0)
  /\ (cs <= 4095 -> Z.land cs 0x7000 = 0).
Proof.
  intros H. pose proof (forallb_uint16 _ clock_facts_all cs H) as F.
  unfold clock_facts in F. rewrite !andb_true_iff in F.
  destruct F as [[[[[[_ F1] _] _] F2] F3] _].
  apply Z.eqb_eq in F1. apply Bool.eqb_prop in F2.
  repeat split.
  - exact F1.
  - intros E. apply Z.eqb_eq. rewrite <- F2. now apply Z.eqb_eq.
  - intros E. apply Z.eqb_eq. rewrite F2. now apply Z.eqb_eq.
  - intros E. apply Z.leb_le in E. rewrite E in F3. now apply Z.eqb_eq.
Qed.


(** ** Results of [parseUUID] and the decoder *)

Lemma Ok_inj {A : Type} (a b : A) : Ok a = Ok b -> a = b.
Proof. intros H. now injection H. Qed.

Lemma Some_inj {A : Type} (a b : A) : Some a = Some b -> a = b.
Proof. intros H. now injection H. Qed.

Lemma hex_Decode_even_inv l b :
  Nat.even (List.length l) = true -> hex_Decode l = Ok b ->
  List.length l = (2 * List.length b)%nat /\ Forall is_byte b
  /\ forallb is_hex_digit l = true /\ hex_chars b = map to_lower l.
Proof.
  intros Hev Hb. destruct (forallb is_hex_digit l) eqn:Hh.
  - destruct (hex_Decode_ok l Hev Hh) as (bs & E & H1 & H2 & H3).
    rewrite E in Hb. injection Hb as <-. auto.
  - rewrite (hex_Decode_bad l Hev Hh) in Hb. discriminate Hb.
Qed.

Lemma scratch_length (body : list ascii) :
  List.length body = 32%nat ->
  List.length (filter notdash body
               ++ repeat zero (32 - List.length (filter notdash body))) = 32%nat.
Proof.
  intros H. pose proof (filter_length_bound notdash body) as Hb.
  rewrite length_app, repeat_length. lia.
Qed.

Lemma parseUUID_shape s b :
  parseUUID s = Ok b -> List.length b = 16%nat /\ Forall is_byte b.
Proof.
  intros H.
  destruct (Nat.eq_dec (String.length s) 32) as [E32 | N32].
  - rewrite (parseUUID_32 s E32) in H.
    apply hex_Decode_even_inv in H; [| now rewrite length_chars, E32].
    rewrite length_chars, E32 in H. destruct H as (H1 & H2 & _). split; [lia | auto].
  - destruct (Nat.eq_dec (String.length s) 36) as [E36 | N36].
    + destruct (dashes_ok s) eqn:Ed.
      * rewrite (parseUUID_36 s E36 Ed) in H. cbv zeta in H.
        pose proof (dashes_ok_nth s Ed) as (E8 & E13 & E18 & E23).
        rewrite <- length_chars in E36.
        destruct (filter_notdash_36 _ E36 E8 E13 E18 E23) as [_ Hl].
        pose proof (scratch_length _ Hl) as Hs.
        apply hex_Decode_even_inv in H; [| now rewrite Hs].
        rewrite Hs in H. destruct H as (H1 & H2 & _). split; [lia | auto].
      * rewrite (parseUUID_bad_dashes s E36 Ed) in H. discriminate H.
    + rewrite (parseUUID_other s N32 N36) in H. discriminate H.
Qed.

(** [parseUUID] never reads or writes out of range: its failures are
    the three kinds of malformed text. *)
Lemma parseUUID_no_panic s : parseUUID s <> Err Panic.
Proof.
  destruct (Nat.eq_dec (String.length s) 32) as [E32 | N32].
  - rewrite (parseUUID_32 s E32).
    assert (Hev : Nat.even (List.length (list_ascii_of_string s)) = true)
      by now rewrite length_chars, E32.
    destruct (forallb is_hex_digit (list_ascii_of_string s)) eqn:Hh.
    + destruct (hex_Decode_ok _ Hev Hh) as (b & -> & _). discriminate.
    + rewrite (hex_Decode_bad _ Hev Hh). discriminate.
  - destruct (Nat.eq_dec (String.length s) 36) as [E36 | N36].
    + destruct (dashes_ok s) eqn:Ed.
      * rewrite (parseUUID_36 s E36 Ed). cbv zeta.
        pose proof (dashes_ok_nth s Ed) as (E8 & E13 & E18 & E23).
        rewrite <- length_chars in E36.
        destruct (filter_notdash_36 _ E36 E8 E13 E18 E23) as [_ Hl].
        pose proof (scratch_length _ Hl) as Hs.
        set (body := undashed (list_ascii_of_string s)) in *.
        set (l := filter notdash body
                  ++ repeat zero (32 - List.length (filter notdash body))) in *.
        assert (Hev : Nat.even (List.length l) = true) by now rewrite Hs.
        destruct (forallb is_hex_digit l) eqn:Hh.
        -- destruct (hex_Decode_ok _ Hev Hh) as (b & -> & _). discriminate.
        -- rewrite (hex_Decode_bad _ Hev Hh). discriminate.
      * rewrite (parseUUID_bad_dashes s E36 Ed). discriminate.
    + rewrite (parseUUID_other s N32 N36). discriminate.
Qed.

Lemma FromString_fields_16 b :
  List.length b = 16%nat -> Forall is_byte b ->
  FromString_fields b = Ok (decoded b).
Proof.
  intros Hl Hb. explicit16 b Hl. bytes_of Hb.
  unfold FromString_fields, decoded, slice.
  cbn [idx nth_error bind List.length Nat.leb andb firstn skipn Nat.sub nth].
  rewrite decode_timestamp_be by assumption.
  match goal with
  | |- context [Z.lor (to_uint16 (Z.shiftl (Z.land ?b6 0x0F) 8)) ?b7] =>
      destruct (decode_clock_seq b6 b7) as (-> & _); [assumption .. |]
  end.
  reflexivity.
Qed.

Lemma decoded_shape b :
  List.length b = 16%nat -> Forall is_byte b ->
  0 <= ClockSeq (decoded b) <= 4095 /\ List.length (Node (decoded b)) = 6%nat.
Proof.
  intros Hl Hb. explicit16 b Hl. bytes_of Hb.
  unfold decoded. cbn [ClockSeq Node nth firstn skipn List.length].
  split; [| reflexivity].
  match goal with
  | |- context [Z.lor (Z.shiftl (Z.land ?b6 0x0F) 8) ?b7] =>
      destruct (decode_clock_seq b6 b7) as (E & _ & R); [assumption .. |]
  end.
  cbv zeta in E, R. rewrite <- E. exact R.
Qed.

Lemma FromString_parsed s b :
  parseUUID s = Ok b -> FromString s = Ok (decoded b).
Proof.
  intros H. destruct (parseUUID_shape s b H) as [Hl Hb].
  unfold FromString. rewrite H. apply FromString_fields_16; assumption.
Qed.

Lemma FromString_inv s u :
  FromString s = Ok u -> exists b, parseUUID s = Ok b /\ u = decoded b.
Proof.
  intros H. destruct (parseUUID s) as [b | e] eqn:E.
  - exists b. split; [reflexivity |].
    rewrite (FromString_parsed s b E) in H. now injection H.
  - unfold FromString in H. rewrite E in H. destruct e; discriminate H.
Qed.

Lemma FromStringOrNil_inv s u :
  FromStringOrNil s = Ok (Some u) ->
  exists b, parseUUID s = Ok b /\ isAllZeroUUID b = false /\ u = decoded b.
Proof.
  intros H. unfold FromStringOrNil in H.
  destruct (parseUUID s) as [b | e] eqn:E; [| destruct e; discriminate H].
  destruct (parseUUID_shape s b E) as [Hl Hb].
  destruct (isAllZeroUUID b) eqn:Ez; [discriminate H |].
  exists b. split; [reflexivity |]. split; [exact Ez |].
  pose proof (FromString_fields_16 b Hl Hb) as F.
  explicit16 b Hl.
  unfold FromString_fields, slice, decodeTimestamp in *.
  cbn [idx nth_error bind List.length Nat.leb andb firstn skipn Nat.sub nth] in *.
  apply Ok_inj in H, F. apply Some_inj in H. rewrite <- H. exact F.
Qed.

(** ** The encoder's result *)

Lemma encoded_length timestamp clockSeq node timestampBits :
  List.length node = 6%nat ->
  List.length (encoded timestamp clockSeq node timestampBits) = 16%nat.
Proof.
  intros Hn. unfold encoded.
  destruct (timestamp_bytes_shape timestamp timestampBits) as [Ht _].
  rewrite length_app. cbn [List.length]. rewrite length_app, Ht, Hn. reflexivity.
Qed.

Lemma string_of_chars_length l :
  String.length (string_of_list_ascii l) = List.length l.
Proof. now rewrite <- length_chars, list_ascii_of_string_of_list_ascii. Qed.

Lemma NewWithParams_ok timestamp clockSeq node timestampBits :
  List.length node = 6%nat -> supported_width timestampBits ->
  NewWithParams timestamp clockSeq node timestampBits
  = Ok (string_of_list_ascii
          (dashed_hex (encoded timestamp clockSeq node timestampBits))).
Proof.
  intros Hn Hw. unfold NewWithParams.
  rewrite (NewWithParams_uuid_ok _ _ _ _ Hn Hw). cbn [bind].
  apply formatUUID_16, encoded_length, Hn.
Qed.

Lemma NewWithParams_bad_node timestamp clockSeq node timestampBits :
  List.length node <> 6%nat ->
  NewWithParams timestamp clockSeq node timestampBits = Err InvalidNodeLength.
Proof.
  intros Hn. unfold NewWithParams, NewWithParams_uuid.
  apply Nat.eqb_neq in Hn. now rewrite Hn.
Qed.

Lemma NewWithParams_bad_width timestamp clockSeq node timestampBits :
  List.length node = 6%nat -> ~ supported_width timestampBits ->
  NewWithParams timestamp clockSeq node timestampBits
  = Err UnsupportedTimestampWidth.
Proof.
  intros Hn Hw. unfold NewWithParams, NewWithParams_uuid, encodeTimestamp.
  rewrite Hn. cbn [Nat.eqb negb]. unfold supported_width in Hw.
  unfold TimestampBits32, TimestampBits48, TimestampBits60.
  destruct (Z.eqb_spec timestampBits 32); [tauto |].
  destruct (Z.eqb_spec timestampBits 48); [tauto |].
  destruct (Z.eqb_spec timestampBits 60); [tauto |].
  reflexivity.
Qed.

Lemma supported_width_dec timestampBits :
  supported_width timestampBits \/ ~ supported_width timestampBits.
Proof. unfold supported_width. lia. Qed.

(** ** Case of the hex digits *)

Lemma parseUUID_lower s : parseUUID (lower_string s) = parseUUID s.
Proof.
  unfold parseUUID, lower_string, hex_DecodeString.
  rewrite !list_ascii_of_string_of_list_ascii, length_map.
  set (cs := list_ascii_of_string s).
  destruct (List.length cs =? 32)%nat; [apply hex_Decode_lower |].
  destruct (List.length cs =? 36)%nat; [| reflexivity].
  unfold char_at. rewrite !nth_error_map.
  destruct (nth_error cs 8) as [c8 |]; [| reflexivity].
  cbn [option_map bind]. rewrite to_lower_dash.
  destruct (Ascii.eqb c8 dash); [| reflexivity]. cbn [negb].
  destruct (nth_error cs 13) as [c13 |]; [| reflexivity].
  cbn [option_map bind]. rewrite to_lower_dash.
  destruct (Ascii.eqb c13 dash); [| reflexivity]. cbn [negb].
  destruct (nth_error cs 18) as [c18 |]; [| reflexivity].
  cbn [option_map bind]. rewrite to_lower_dash.
  destruct (Ascii.eqb c18 dash); [| reflexivity]. cbn [negb].
  destruct (nth_error cs 23) as [c23 |]; [| reflexivity].
  cbn [option_map bind]. rewrite to_lower_dash.
  destruct (Ascii.eqb c23 dash); [| reflexivity]. cbn [negb].
  change (repeat zero 32) with (map to_lower (repeat zero 32)) at 1.
  rewrite (removeDashes_map to_lower cs to_lower_dash).
  destruct (removeDashes cs (repeat zero 32) 0) as [r | e]; [| reflexivity].
  cbn [bind]. rewrite !list_ascii_of_string_of_list_ascii.
  apply hex_Decode_lower.
Qed.

(** ** The encoder's buffer, read back *)

Lemma version_nibble_eqb cs :
  is_uint16 cs ->
  (Z.shiftr (clock_hi cs) 4 =? versionV8) = (Z.land cs 0x7000 =? 0).
Proof.
  intros H. destruct (version_nibble cs H) as (_ & [H1 H2] & _).
  unfold versionV8.
  destruct (Z.eqb_spec (Z.shiftr (clock_hi cs) 4) 8) as [E | E],
           (Z.eqb_spec (Z.land cs 0x7000) 0) as [E' | E']; tauto.
Qed.

Lemma encoded_clock_bytes timestamp clockSeq node timestampBits :
  idx (encoded timestamp clockSeq node timestampBits) 6 = Ok (clock_hi clockSeq)
  /\ idx (encoded timestamp clockSeq node timestampBits) 7 = Ok (clock_lo clockSeq)
  /\ isAllZeroUUID (encoded timestamp clockSeq node timestampBits) = false.
Proof.
  unfold encoded, isAllZeroUUID. rewrite forallb_app. cbn [forallb].
  destruct (clock_bytes_shape clockSeq) as (_ & _ & _ & _ & Hnz).
  apply Z.eqb_neq in Hnz. rewrite Hnz. cbn [andb]. rewrite andb_false_r.
  unfold timestamp_bytes.
  destruct (timestampBits =? 32); [| destruct (timestampBits =? 48)];
    repeat split.
Qed.

Lemma IsValidUUIDv8_encoded timestamp clockSeq node timestampBits :
  is_uint16 clockSeq -> List.length node = 6%nat -> Forall is_byte node ->
  supported_width timestampBits ->
  IsValidUUIDv8 (string_of_list_ascii
                   (dashed_hex (encoded timestamp clockSeq node timestampBits)))
  = Ok (Z.land clockSeq 0x7000 =? 0).
Proof.
  intros Hcs Hn Hnode Hw.
  destruct (encoder_buffer_shape _ _ _ _ _ Hnode
              (NewWithParams_uuid_ok timestamp clockSeq node timestampBits Hn Hw))
    as [Hl Hb].
  fold (encoded timestamp clockSeq node timestampBits) in Hl, Hb.
  unfold IsValidUUIDv8. rewrite (parse_dashed_hex _ Hl Hb).
  destruct (encoded_clock_bytes timestamp clockSeq node timestampBits)
    as (E6 & E7 & Ez).
  rewrite Ez, E6, E7. cbn [bind].
  destruct (clock_bytes_shape clockSeq) as (_ & _ & Hv & _).
  rewrite Hv, Z.eqb_refl, andb_true_r. f_equal.
  apply version_nibble_eqb, Hcs.
Qed.

Lemma decoded_encoded48 timestamp clockSeq node :
  is_uint16 clockSeq -> List.length node = 6%nat ->
  decoded (encoded timestamp clockSeq node 48)
  = {| Timestamp := timestamp mod 2 ^ 48;
       ClockSeq := Z.lor (Z.land clockSeq 0x0F3F) 0x80;
       Node := node |}.
Proof.
  intros Hcs Hn.
  do 6 (destruct node as [| ? node]; [discriminate Hn |]).
  destruct node; [| discriminate Hn].
  unfold decoded, encoded, timestamp_bytes.
  cbn [Z.eqb Pos.eqb app firstn skipn nth].
  f_equal.
  - rewrite <- decode_timestamp_be by apply to_byte_range.
    apply timestamp48_roundtrip.
  - destruct (clock_bytes_shape clockSeq) as (Hhi & Hlo & _).
    destruct (decode_clock_seq _ _ Hhi Hlo) as (E & _). cbv zeta in E.
    rewrite <- E. apply clock_roundtrip, Hcs.
Qed.


(** ** JSON serialization *)

Lemma ToString_ok u :
  List.length (Node u) = 6%nat ->
  ToString u
  = Ok (string_of_list_ascii
          (dashed_hex (encoded (Timestamp u) (ClockSeq u) (Node u) 48))).
Proof.
  intros Hn. destruct u as [ts cs node]. cbn [Timestamp ClockSeq Node] in *.
  assert (E : ToString_uuid (mkUUIDv8 ts cs node) = Ok (Some (encoded ts cs node 48))).
  { do 6 (destruct node as [| ? node]; [discriminate Hn |]).
    destruct node; [| discriminate Hn]. reflexivity. }
  unfold ToString. rewrite E. cbn [bind].
  apply formatUUID_16, encoded_length, Hn.
Qed.

Example New_fixed_entropy :
  New 1633024800000000000 (Some [0xAB; 0xCD]) (Some [1; 2; 3; 4; 5; 6])
  = Done "ab674967-4000-8b8d-0102-030405060000"%string.
Proof. reflexivity. Qed.

(** ** Validity of a parsed buffer *)

Lemma all_zero_byte6 b :
  isAllZeroUUID b = true -> nth 6 b 0 = 0.
Proof.
  unfold isAllZeroUUID. rewrite forallb_forall. intros H.
  destruct (nth_in_or_default 6 b 0) as [Hin | E]; [| exact E].
  apply Z.eqb_eq, H, Hin.
Qed.

Lemma IsValidUUIDv8_parsed s b :
  parseUUID s = Ok b -> IsValidUUIDv8 s = Ok (tagged_v8 b).
Proof.
  intros H. destruct (parseUUID_shape s b H) as [Hl _].
  unfold IsValidUUIDv8. rewrite H.
  destruct (isAllZeroUUID b) eqn:Ez.
  - unfold tagged_v8. now rewrite (all_zero_byte6 b Ez).
  - explicit16 b Hl. reflexivity.
Qed.

Lemma IsValidUUIDv8_unparsed s e :
  parseUUID s = Err e -> IsValidUUIDv8 s = Ok false.
Proof.
  intros H. unfold IsValidUUIDv8. rewrite H.
  destruct e; try reflexivity. exfalso. exact (parseUUID_no_panic s H).
Qed.

Lemma tagged_v8_encoded timestamp clockSeq node timestampBits :
  is_uint16 clockSeq -> List.length node = 6%nat ->
  tagged_v8 (encoded timestamp clockSeq node timestampBits)
  = (Z.land clockSeq 0x7000 =? 0).
Proof.
  intros Hcs Hn.
  destruct (timestamp_bytes_shape timestamp timestampBits) as [Ht _].
  unfold tagged_v8, encoded.
  destruct (timestamp_bytes timestamp timestampBits)
    as [| t0 [| t1 [| t2 [| t3 [| t4 [| t5 [| ? ?]]]]]]]; try discriminate Ht.
  cbn [app nth].
  destruct (clock_bytes_shape clockSeq) as (_ & _ & Hv & _).
  rewrite Hv, Z.eqb_refl, andb_true_r. apply version_nibble_eqb, Hcs.
Qed.

(** ** Parsed fields *)

Lemma be_value6_range b0 b1 b2 b3 b4 b5 :
  is_byte b0 -> is_byte b1 -> is_byte b2 -> is_byte b3 -> is_byte b4 ->
  is_byte b5 -> 0 <= be_value [b0; b1; b2; b3; b4; b5] < 2 ^ 48.
Proof.
  intros H0 H1 H2 H3 H4 H5.
  apply (byte_of_be_value b0 b1 b2 b3 b4 b5 H0 H1 H2 H3 H4 H5).
Qed.

Lemma decoded_wf b :
  List.length b = 16%nat -> Forall is_byte b ->
  0 <= Timestamp (decoded b) < 2 ^ 48 /\ wf_UUIDv8 (decoded b).
Proof.
  intros Hl Hb.
  destruct (decoded_shape b Hl Hb) as [Hc _].
  assert (Hn : Forall is_byte (Node (decoded b))).
  { unfold decoded. cbn [Node].
    apply (Forall_firstn_skipn is_byte 6), (Forall_firstn_skipn is_byte 8), Hb. }
  assert (Ht : 0 <= Timestamp (decoded b) < 2 ^ 48).
  { clear Hc Hn. explicit16 b Hl. bytes_of Hb. unfold decoded.
    cbn [Timestamp firstn]. apply be_value6_range; assumption. }
  split; [exact Ht |]. unfold wf_UUIDv8, is_uint64, is_uint16.
  repeat split; try lia; exact Hn.
Qed.

(** ** The timestamp at the three widths *)

Lemma window_byte_48 ts k :
  0 <= k <= 40 ->
  to_byte (Z.shiftr (ts mod 2 ^ 48) k) = to_byte (Z.shiftr ts k).
Proof. intros H. unfold to_byte. Z.bitblast. Qed.

Lemma window_byte_60 ts k k' :
  0 <= k <= 40 -> k' = k + 12 ->
  to_byte (Z.shiftr ((ts / 2 ^ 12) mod 2 ^ 48) k) = to_byte (Z.shiftr ts k').
Proof. intros H ->. unfold to_byte. Z.bitblast. Qed.

Lemma window_byte_32 ts k k' :
  16 <= k <= 40 -> k' = k - 16 ->
  to_byte (Z.shiftr ((ts mod 2 ^ 32) * 2 ^ 16) k) = to_byte (Z.shiftr ts k').
Proof.
  intros H ->. rewrite <- Z.shiftl_mul_pow2 by lia. unfold to_byte. Z.bitblast.
Qed.

Lemma window_byte_32_low ts k :
  0 <= k <= 8 -> to_byte (Z.shiftr ((ts mod 2 ^ 32) * 2 ^ 16) k) = 0.
Proof.
  intros H. rewrite <- Z.shiftl_mul_pow2 by lia. unfold to_byte. Z.bitblast.
  rewrite (Z.testbit_neg_r ts) by lia. reflexivity.
Qed.

(** The bytes written at a width are the six bytes of the window. *)
Lemma timestamp_bytes_window timestamp timestampBits :
  supported_width timestampBits ->
  timestamp_bytes timestamp timestampBits
  = timestamp_bytes (timestamp_window timestamp timestampBits) 48.
Proof.
  intros [-> | [-> | ->]]; unfold timestamp_bytes, timestamp_window;
    cbn [Z.eqb Pos.eqb].
  - rewrite (window_byte_32 timestamp 40 24), (window_byte_32 timestamp 32 16),
      (window_byte_32 timestamp 24 8) by lia.
    rewrite (window_byte_32 timestamp 16 0) by lia.
    rewrite (window_byte_32_low timestamp 8) by lia.
    change (to_byte (timestamp mod 2 ^ 32 * 2 ^ 16))
      with (to_byte (Z.shiftr (timestamp mod 2 ^ 32 * 2 ^ 16) 0)).
    rewrite (window_byte_32_low timestamp 0) by lia. reflexivity.
  - rewrite !window_byte_48 by lia.
    change (to_byte (timestamp mod 2 ^ 48))
      with (to_byte (Z.shiftr (timestamp mod 2 ^ 48) 0)).
    rewrite window_byte_48 by lia. reflexivity.
  - rewrite (window_byte_60 timestamp 40 52), (window_byte_60 timestamp 32 44),
      (window_byte_60 timestamp 24 36), (window_byte_60 timestamp 16 28),
      (window_byte_60 timestamp 8 20) by lia.
    change (to_byte ((timestamp / 2 ^ 12) mod 2 ^ 48))
      with (to_byte (Z.shiftr ((timestamp / 2 ^ 12) mod 2 ^ 48) 0)).
    rewrite (window_byte_60 timestamp 0 12) by lia. reflexivity.
Qed.

Lemma timestamp_window_range timestamp timestampBits :
  0 <= timestamp_window timestamp timestampBits < 2 ^ 48.
Proof.
  unfold timestamp_window.
  destruct (timestampBits =? 32); [| destruct (timestampBits =? 48)].
  - pose proof (Z.mod_pos_bound timestamp (2 ^ 32) eq_refl).
    change (2 ^ 48) with (2 ^ 32 * 2 ^ 16). nia.
  - apply Z.mod_pos_bound. reflexivity.
  - apply Z.mod_pos_bound. reflexivity.
Qed.

Lemma be_value_timestamp_bytes48 w :
  be_value (timestamp_bytes w 48) = w mod 2 ^ 48.
Proof.
  unfold timestamp_bytes. cbn [Z.eqb Pos.eqb].
  rewrite <- decode_timestamp_be by apply to_byte_range.
  apply timestamp48_roundtrip.
Qed.

Lemma be_value_timestamp_bytes timestamp timestampBits :
  supported_width timestampBits ->
  be_value (timestamp_bytes timestamp timestampBits)
  = timestamp_window timestamp timestampBits.
Proof.
  intros Hw. rewrite (timestamp_bytes_window _ _ Hw), be_value_timestamp_bytes48.
  apply Z.mod_small, timestamp_window_range.
Qed.

Lemma decoded_encoded timestamp clockSeq node timestampBits :
  is_uint16 clockSeq -> List.length node = 6%nat ->
  supported_width timestampBits ->
  decoded (encoded timestamp clockSeq node timestampBits)
  = {| Timestamp := timestamp_window timestamp timestampBits;
       ClockSeq := Z.lor (Z.land clockSeq 0x0F3F) 0x80;
       Node := node |}.
Proof.
  intros Hcs Hn Hw.
  pose proof (be_value_timestamp_bytes timestamp timestampBits Hw) as Hbe.
  destruct (timestamp_bytes_shape timestamp timestampBits) as [Ht _].
  unfold decoded, encoded.
  destruct (timestamp_bytes timestamp timestampBits)
    as [| t0 [| t1 [| t2 [| t3 [| t4 [| t5 [| ? ?]]]]]]]; try discriminate Ht.
  do 6 (destruct node as [| ? node]; [discriminate Hn |]).
  destruct node; [| discriminate Hn].
  cbn [app firstn skipn nth]. f_equal.
  - exact Hbe.
  - destruct (clock_bytes_shape clockSeq) as (Hhi & Hlo & _).
    destruct (decode_clock_seq _ _ Hhi Hlo) as (E & _). cbv zeta in E.
    rewrite <- E. apply clock_roundtrip, Hcs.
Qed.

(** ** [ToString] on any struct *)

Lemma skipn_zero_tail (p0 p1 p2 p3 p4 p5 p6 p7 : Z) k :
  skipn (8 + k) [p0; p1; p2; p3; p4; p5; p6; p7; 0; 0; 0; 0; 0; 0; 0; 0]
  = repeat 0 (8 - k).
Proof.
  do 9 (destruct k as [| k]; [reflexivity |]). reflexivity.
Qed.

Lemma ToString_uuid_any u :
  ToString_uuid u
  = Ok (Some (timestamp_bytes (Timestamp u) 48
              ++ clock_hi (ClockSeq u) :: clock_lo (ClockSeq u)
              :: node_field (Node u))).
Proof.
  destruct u as [ts cs node]. cbn [Timestamp ClockSeq Node].
  change (ToString_uuid (mkUUIDv8 ts cs node))
    with (uuid <- copy_at (timestamp_bytes ts 48
                           ++ [clock_hi cs; clock_lo cs; 0; 0; 0; 0; 0; 0; 0; 0])
                    8 node ;;
          Ok (Some uuid)).
  unfold copy_at, timestamp_bytes. cbn [Z.eqb Pos.eqb app List.length Nat.leb
                                         Nat.sub firstn bind].
  rewrite skipn_zero_tail. reflexivity.
Qed.

Lemma node_field_shape node :
  Forall is_byte node ->
  List.length (node_field node) = 8%nat /\ Forall is_byte (node_field node).
Proof.
  intros H. unfold node_field. split.
  - rewrite length_app, length_firstn, repeat_length. lia.
  - apply Forall_app. split; [apply (Forall_firstn_skipn is_byte 8), H |].
    apply Forall_forall. intros x Hx. apply repeat_spec in Hx. subst x.
    unfold is_byte. lia.
Qed.

Lemma ToString_any u :
  Forall is_byte (Node u) ->
  exists b, ToString_uuid u = Ok (Some b) /\ List.length b = 16%nat
            /\ Forall is_byte b
            /\ ToString u = Ok (string_of_list_ascii (dashed_hex b)).
Proof.
  intros Hn. eexists. split; [apply ToString_uuid_any |].
  destruct (node_field_shape _ Hn) as [Hl Hf].
  destruct (timestamp_bytes_shape (Timestamp u) 48) as [Htl Htf].
  destruct (clock_bytes_shape (ClockSeq u)) as (Hhi & Hlo & _).
  assert (L : List.length (timestamp_bytes (Timestamp u) 48
                           ++ clock_hi (ClockSeq u) :: clock_lo (ClockSeq u)
                           :: node_field (Node u)) = 16%nat).
  { rewrite length_app. cbn [List.length]. rewrite Htl, Hl. reflexivity. }
  split; [exact L |]. split.
  - apply Forall_app. split; [exact Htf |].
    constructor; [exact Hhi |]. constructor; [exact Hlo | exact Hf].
  - unfold ToString. rewrite ToString_uuid_any. cbn [bind].
    apply formatUUID_16, L.
Qed.

(** ** From a string to a struct and back *)

Lemma clock_of_tagged b6 b7 :
  is_byte b6 -> is_byte b7 ->
  let cs := Z.lor (Z.shiftl (Z.land b6 0x0F) 8) b7 in
  is_uint16 cs /\ Z.land cs 0x7000 = 0
  /\ (Z.shiftr b6 4 = versionV8 -> clock_hi cs = b6)
  /\ (Z.land (Z.shiftr b7 6) 3 = variantRFC4122 -> clock_lo cs = b7).
Proof.
  intros H6 H7. cbv zeta.
  destruct (decode_clock_seq b6 b7 H6 H7) as (E1 & E2 & R). cbv zeta in *.
  rewrite <- E1.
  set (cs := Z.lor (to_uint16 (Z.shiftl (Z.land b6 0x0F) 8)) b7) in *.
  assert (Hcs : is_uint16 cs) by (unfold is_uint16; lia).
  split; [exact Hcs |].
  split; [apply (version_nibble cs Hcs); lia |].
  pose proof (forallb_bytes clock_decode_ok eq_refl b6 H6) as D.
  unfold clock_decode_ok in D. cbv zeta in D. rewrite !andb_true_iff in D.
  destruct D as [[[_ _] D1] D2]. apply Z.leb_le in D1, D2.
  pose proof (forallb_bytes tag_bytes_ok eq_refl b6 H6) as T6.
  pose proof (forallb_bytes tag_bytes_ok eq_refl b7 H7) as T7.
  unfold tag_bytes_ok in T6, T7. rewrite !andb_true_iff in T6, T7.
  destruct T6 as [[T6 _] _], T7 as [[_ T7] _].
  apply Bool.eqb_prop in T6, T7. unfold is_byte in H7.
  change (2 ^ 8) with 256 in H7.
  split.
  - intros Hv. unfold clock_hi.
    replace (to_byte (Z.shiftr cs 8)) with (Z.land b6 0x0F).
    + apply Z.eqb_eq. rewrite T6. now apply Z.eqb_eq.
    + unfold to_byte. rewrite Z.shiftr_div_pow2, E2 by lia.
      change (2 ^ 8) with 256. Z.div_mod_to_equations. lia.
  - intros Hv. unfold clock_lo.
    replace (to_byte cs) with b7.
    + apply Z.eqb_eq. rewrite T7. now apply Z.eqb_eq.
    + unfold to_byte. rewrite E2. change (2 ^ 8) with 256.
      Z.div_mod_to_equations. lia.
Qed.

Lemma tagged_v8_inv b :
  tagged_v8 b = true ->
  Z.shiftr (nth 6 b 0) 4 = versionV8
  /\ Z.land (Z.shiftr (nth 7 b 0) 6) 3 = variantRFC4122.
Proof.
  unfold tagged_v8. rewrite andb_true_iff, !Z.eqb_eq. auto.
Qed.

(** Encoding the fields read from a tagged buffer whose last two bytes
    are zero gives the buffer back. *)
Lemma encoded_decoded b :
  List.length b = 16%nat -> Forall is_byte b -> tagged_v8 b = true ->
  nth 14 b 0 = 0 -> nth 15 b 0 = 0 ->
  encoded (Timestamp (decoded b)) (ClockSeq (decoded b)) (Node (decoded b)) 48
  = b.
Proof.
  intros Hl Hb Ht H14 H15. apply tagged_v8_inv in Ht. destruct Ht as [Hv Hr].
  explicit16 b Hl. bytes_of Hb. cbn [nth] in *. subst.
  unfold decoded, encoded, timestamp_bytes.
  cbn [Timestamp ClockSeq Node firstn skipn nth Z.eqb Pos.eqb app].
  match goal with
  | |- context [be_value [?b0; ?b1; ?b2; ?b3; ?b4; ?b5]] =>
      destruct (byte_of_be_value b0 b1 b2 b3 b4 b5)
        as (_ & -> & -> & -> & -> & -> & ->); try assumption
  end.
  match goal with
  | |- context [clock_hi (Z.lor (Z.shiftl (Z.land ?b6 0x0F) 8) ?b7)] =>
      destruct (clock_of_tagged b6 b7) as (_ & _ & E6 & E7); try assumption;
      cbv zeta in E6, E7; rewrite (E6 Hv), (E7 Hr)
  end.
  reflexivity.
Qed.

Lemma ToString_decoded b :
  List.length b = 16%nat -> Forall is_byte b -> tagged_v8 b = true ->
  nth 14 b 0 = 0 -> nth 15 b 0 = 0 ->
  ToString (decoded b) = Ok (string_of_list_ascii (dashed_hex b)).
Proof.
  intros Hl Hb Ht H14 H15.
  destruct (decoded_shape b Hl Hb) as [_ Hn].
  rewrite (ToString_ok _ Hn), (encoded_decoded b Hl Hb Ht H14 H15).
  reflexivity.
Qed.

Lemma encoded_tail timestamp clockSeq node timestampBits :
  List.length node = 6%nat ->
  nth 14 (encoded timestamp clockSeq node timestampBits) 0 = 0
  /\ nth 15 (encoded timestamp clockSeq node timestampBits) 0 = 0.
Proof.
  intros Hn.
  destruct (timestamp_bytes_shape timestamp timestampBits) as [Ht _].
  unfold encoded.
  destruct (timestamp_bytes timestamp timestampBits)
    as [| t0 [| t1 [| t2 [| t3 [| t4 [| t5 [| ? ?]]]]]]]; try discriminate Ht.
  do 6 (destruct node as [| ? node]; [discriminate Hn |]).
  destruct node; [| discriminate Hn]. split; reflexivity.
Qed.

Lemma encoded_shape timestamp clockSeq node timestampBits :
  List.length node = 6%nat -> Forall is_byte node ->
  supported_width timestampBits ->
  List.length (encoded timestamp clockSeq node timestampBits) = 16%nat
  /\ Forall is_byte (encoded timestamp clockSeq node timestampBits).
Proof.
  intros Hn Hnode Hw.
  apply (encoder_buffer_shape timestamp clockSeq node timestampBits _ Hnode).
  apply NewWithParams_uuid_ok; assumption.
Qed.

(** ** [FromStringOrNil] *)

Lemma all_zero_16 b :
  List.length b = 16%nat -> isAllZeroUUID b = true -> b = repeat 0 16.
Proof.
  intros Hl Hz. unfold isAllZeroUUID in Hz. rewrite forallb_forall in Hz.
  assert (H : Forall (fun x => x = 0) b).
  { apply Forall_forall. intros x Hx. apply Z.eqb_eq, Hz, Hx. }
  explicit16 b Hl.
  repeat match goal with
         | H : Forall _ (_ :: _) |- _ =>
             apply Forall_cons_iff in H; destruct H as [-> H]
         end.
  reflexivity.
Qed.

Lemma FromStringOrNil_parsed s b :
  parseUUID s = Ok b ->
  FromStringOrNil s
  = Ok (if isAllZeroUUID b then None else Some (decoded b)).
Proof.
  intros H. destruct (parseUUID_shape s b H) as [Hl Hb].
  pose proof (FromString_fields_16 b Hl Hb) as F.
  unfold FromStringOrNil. rewrite H.
  destruct (isAllZeroUUID b); [reflexivity |].
  explicit16 b Hl.
  unfold FromString_fields, slice, decodeTimestamp in *.
  cbn [idx nth_error bind List.length Nat.leb andb firstn skipn Nat.sub nth] in *.
  apply Ok_inj in F. now rewrite F.
Qed.

Lemma FromStringOrNil_unparsed s e :
  parseUUID s = Err e -> FromStringOrNil s = Ok None.
Proof.
  intros H. unfold FromStringOrNil. rewrite H.
  destruct e; try reflexivity. exfalso. exact (parseUUID_no_panic s H).
Qed.

Lemma FromString_unparsed s e :
  parseUUID s = Err e -> FromString s = Err (FailedToParse e).
Proof.
  intros H. unfold FromString. rewrite H.
  destruct e; try reflexivity. exfalso. exact (parseUUID_no_panic s H).
Qed.

(** ** From text to bytes and back to text *)

Lemma dashed_hex_redash b :
  List.length b = 16%nat -> dashed_hex b = redash (hex_chars b).
Proof. intros H. explicit16 b H. reflexivity. Qed.

Lemma redash_undashed cs :
  List.length cs = 36%nat ->
  nth_error cs 8 = Some dash -> nth_error cs 13 = Some dash ->
  nth_error cs 18 = Some dash -> nth_error cs 23 = Some dash ->
  redash (map to_lower (undashed cs)) = map to_lower cs.
Proof.
  intros Hlen H8 H13 H18 H23.
  do 36 (destruct cs as [| ? cs]; [discriminate Hlen |]).
  destruct cs; [| discriminate Hlen].
  cbn in H8, H13, H18, H23.
  injection H8 as ->. injection H13 as ->.
  injection H18 as ->. injection H23 as ->.
  reflexivity.
Qed.

(** What [parseUUID] returns prints, in hex, as the lower-cased hex
    characters of its input. *)
Lemma parsed_hex_chars s b :
  parseUUID s = Ok b -> hex_chars b = map to_lower (hex_body s).
Proof.
  intros H. unfold hex_body.
  destruct (Nat.eq_dec (String.length s) 32) as [E32 | N32].
  - rewrite E32. cbn [Nat.eqb]. rewrite (parseUUID_32 s E32) in H.
    apply hex_Decode_even_inv in H; [| now rewrite length_chars, E32].
    apply H.
  - destruct (Nat.eq_dec (String.length s) 36) as [E36 | N36].
    + rewrite E36. cbn [Nat.eqb].
      destruct (dashes_ok s) eqn:Ed.
      * rewrite (parseUUID_36 s E36 Ed) in H. cbv zeta in H.
        pose proof (dashes_ok_nth s Ed) as (E8 & E13 & E18 & E23).
        pose proof E36 as E36'. rewrite <- length_chars in E36'.
        destruct (filter_notdash_36 _ E36' E8 E13 E18 E23) as [_ Hl].
        set (body := undashed (list_ascii_of_string s)) in *.
        pose proof (scratch_length body Hl) as Hs.
        destruct (forallb is_hex_digit body) eqn:Hh.
        -- rewrite (filter_notdash_hex body Hh), Hl in H.
           cbn [Nat.sub repeat] in H. rewrite app_nil_r in H.
           apply hex_Decode_even_inv in H; [| now rewrite Hl]. apply H.
        -- rewrite hex_Decode_bad in H; [discriminate H | now rewrite Hs |].
           apply scratch_not_hex; [lia | exact Hh].
      * rewrite (parseUUID_bad_dashes s E36 Ed) in H. discriminate H.
    + rewrite (parseUUID_other s N32 N36) in H. discriminate H.
Qed.

Lemma parsed_36_dashes s b :
  parseUUID s = Ok b -> String.length s = 36%nat -> dashes_ok s = true.
Proof.
  intros H E36. destruct (dashes_ok s) eqn:Ed; [reflexivity |].
  rewrite (parseUUID_bad_dashes s E36 Ed) in H. discriminate H.
Qed.

Lemma string_of_chars_inv s : string_of_list_ascii (list_ascii_of_string s) = s.
Proof. apply string_of_list_ascii_of_string. Qed.

Lemma node_field_first6 node :
  firstn 6 (node_field node) = firstn 6 (node ++ repeat 0 6).
Proof.
  unfold node_field.
  do 6 (destruct node as [| ? node]; [reflexivity |]).
  destruct node as [| ? node]; [reflexivity |].
  destruct node as [| ? node]; reflexivity.
Qed.

(** ** The database and JSON bindings *)

Lemma string_of_bytes_of_string s : string_of_bytes (bytes_of_string s) = s.
Proof.
  unfold string_of_bytes, bytes_of_string, char_code. rewrite map_map.
  rewrite <- (string_of_list_ascii_of_string s) at 2. f_equal.
  rewrite <- (map_id (list_ascii_of_string s)) at 2.
  apply map_ext. intros c. rewrite N2Z.id. apply ascii_N_embedding.
Qed.

Lemma Value_6 u :
  List.length (Node u) = 6%nat ->
  Value (Some u)
  = Ok (Some (string_of_list_ascii
                (dashed_hex (encoded (Timestamp u) (ClockSeq u) (Node u) 48)))).
Proof.
  intros Hn. unfold Value. rewrite Hn. cbn [Nat.eqb negb].
  now rewrite (ToString_ok u Hn).
Qed.

Lemma substring_prefix (s t : string) :
  substring 0 (String.length s) (s ++ t) = s.
Proof.
  induction s as [| c s IH]; [destruct t; reflexivity |].
  cbn [String.length append substring]. now rewrite IH.
Qed.

Lemma substring_quoted (s : string) (q : ascii) :
  substring 0 (String.length (s ++ String q EmptyString) - 1)
    (s ++ String q EmptyString) = s.
Proof.
  replace (String.length (s ++ String q EmptyString) - 1)%nat
    with (String.length s).
  - apply substring_prefix.
  - induction s as [| c s IH]; [reflexivity |].
    cbn [append String.length]. rewrite Nat.sub_succ, Nat.sub_0_r.
    rewrite IH. clear IH. induction s as [| c' s IH]; [reflexivity |].
    cbn [append String.length]. rewrite Nat.sub_succ, Nat.sub_0_r. 
    cbn [append String.length] in IH. lia.
Qed.

(** ** [New] *)

Lemma rand_Read_2 a b rest :
  rand_Read (Some (a :: b :: rest)) (repeat 0 2) = Some [a; b].
Proof. reflexivity. Qed.

Lemma rand_Read_6 (r : list Z) :
  (6 <= List.length r)%nat ->
  rand_Read (Some r) (repeat 0 6) = Some (firstn 6 r)
  /\ List.length (firstn 6 r) = 6%nat.
Proof.
  intros H. unfold rand_Read. cbn [repeat List.length].
  replace (6 <=? List.length r)%nat with true
    by (symmetry; now apply Nat.leb_le).
  split; [reflexivity |]. rewrite length_firstn. lia.
Qed.

Lemma masked_clock_seq v :
  0 <= Z.land v 0x0FFF <= 4095.
Proof.
  change 0x0FFF with (Z.ones 12). rewrite Z.land_ones by lia.
  pose proof (Z.mod_pos_bound v (2 ^ 12) eq_refl) as H.
  change (Z.ones 12) with 4095. change (2 ^ 12) with 4096 in *. lia.
Qed.

Lemma uint64_window48 x : to_uint64 x mod 2 ^ 48 = x mod 2 ^ 48.
Proof. unfold to_uint64. Z.bitblast. Qed.

Lemma rand_Read_None n entropy :
  rand_Read entropy (repeat 0 n) = None <-> ~ supplies n entropy.
Proof.
  unfold rand_Read, supplies. rewrite repeat_length.
  destruct entropy as [bytes |].
  - destruct (Nat.leb_spec n (List.length bytes)) as [Hle | Hlt].
    + split; [discriminate |]. intros Hno. exfalso. apply Hno. eauto.
    + split; [| reflexivity]. intros _ (b' & E & Hle).
      injection E as <-. lia.
  - split; [| reflexivity]. intros _ (b' & E & _). discriminate E.
Qed.

Lemma rand_Read_Some n entropy c :
  rand_Read entropy (repeat 0 n) = Some c ->
  supplies n entropy /\ List.length c = n.
Proof.
  unfold rand_Read, supplies. rewrite repeat_length.
  destruct entropy as [bytes |]; [| discriminate].
  destruct (Nat.leb_spec n (List.length bytes)) as [Hle | Hlt]; [| discriminate].
  intros E. injection E as <-. split; [eauto |].
  rewrite length_firstn. lia.
Qed.

(** ** [decodeTimestamp] *)

Lemma decodeTimestamp_be b :
  (6 <= List.length b)%nat -> Forall is_byte b ->
  decodeTimestamp b = Ok (be_value (firstn 6 b)).
Proof.
  intros Hl Hb.
  do 6 (destruct b as [| ? b]; [cbn in Hl; lia |]).
  repeat match goal with
         | H : Forall is_byte (_ :: _) |- _ =>
             let Hx := fresh "Hx" in
             apply Forall_cons_iff in H; destruct H as [Hx H]
         end.
  unfold decodeTimestamp. cbn [idx nth_error bind firstn].
  now rewrite decode_timestamp_be.
Qed.

Lemma Forall_firstn_bytes n b : Forall is_byte b -> Forall is_byte (firstn n b).
Proof. intros H. apply (Forall_firstn_skipn is_byte n b H). Qed.

(** ** The two results of [parseUUID] *)

(** [hex_Decode] is [hex_Decode_full] with the error kept by kind. *)
Lemma hex_Decode_by_kind src :
  hex_Decode src
  = match hex_Decode_full src with
    | (b, None) => Ok b
    | (_, Some (InvalidByteError _)) => Err InvalidHexEncoding
    | (_, Some ErrLength) => Err HexOddLength
    end.
Proof.
  induction src as [| p | p q l IH] using pair_ind.
  - reflexivity.
  - cbn. destruct (fromHexChar p); reflexivity.
  - cbn [hex_Decode hex_Decode_full].
    destruct (fromHexChar p); [| reflexivity].
    destruct (fromHexChar q); [| reflexivity].
    rewrite IH. destruct (hex_Decode_full l) as [bs [[c |] |]]; reflexivity.
Qed.

Lemma hex_DecodeString_by_kind s :
  hex_DecodeString s = by_kind (Ok (hex_DecodeString_full s)).
Proof.
  unfold hex_DecodeString, hex_DecodeString_full. rewrite hex_Decode_by_kind.
  destruct (hex_Decode_full (list_ascii_of_string s)) as [bs [[c |] |]];
    reflexivity.
Qed.

(** [parseUUID] is [parseUUID_full] with the error kept by kind. *)
Lemma parseUUID_by_kind s : parseUUID s = by_kind (parseUUID_full s).
Proof.
  unfold parseUUID, parseUUID_full. cbv zeta.
  destruct (List.length (list_ascii_of_string s) =? 32)%nat;
    [apply hex_DecodeString_by_kind |].
  destruct (List.length (list_ascii_of_string s) =? 36)%nat; [| reflexivity].
  destruct (char_at (list_ascii_of_string s) 8) as [c8 |]; [| reflexivity].
  cbn [bind]. destruct (negb (Ascii.eqb c8 dash)); [reflexivity |].
  destruct (char_at (list_ascii_of_string s) 13) as [c13 |]; [| reflexivity].
  cbn [bind]. destruct (negb (Ascii.eqb c13 dash)); [reflexivity |].
  destruct (char_at (list_ascii_of_string s) 18) as [c18 |]; [| reflexivity].
  cbn [bind]. destruct (negb (Ascii.eqb c18 dash)); [reflexivity |].
  destruct (char_at (list_ascii_of_string s) 23) as [c23 |]; [| reflexivity].
  cbn [bind]. destruct (negb (Ascii.eqb c23 dash)); [reflexivity |].
  destruct (removeDashes (list_ascii_of_string s) (repeat zero 32) 0)
    as [res |]; [| reflexivity].
  cbn [bind]. apply hex_DecodeString_by_kind.
Qed.

Lemma by_kind_Ok r b : by_kind r = Ok b <-> r = Ok (b, None).
Proof.
  split.
  - destruct r as [[b' [e |]] | e]; cbn; intros H; try discriminate H.
    apply Ok_inj in H. now subst.
  - intros ->. reflexivity.
Qed.

Lemma by_kind_invalid_byte p :
  by_kind (Ok p) = Err InvalidHexEncoding ->
  exists b c, p = (b, Some (HexError (InvalidByteError c))).
Proof.
  destruct p as [b [e |]]; cbn; intros H; [| discriminate H].
  destruct e as [| | [c |]]; try discriminate H. now exists b, c.
Qed.

Lemma parseUUID_full_32 s :
  String.length s = 32%nat -> parseUUID_full s = Ok (hex_DecodeString_full s).
Proof.
  intros H. unfold parseUUID_full. rewrite length_chars, H. reflexivity.
Qed.

Lemma parseUUID_full_36 s :
  String.length s = 36%nat -> dashes_ok s = true ->
  let body := undashed (list_ascii_of_string s) in
  parseUUID_full s
  = Ok (hex_DecodeString_full
          (string_of_list_ascii
             (filter notdash body
              ++ repeat zero (32 - List.length (filter notdash body))))).
Proof.
  intros H Hd. destruct (dashes_ok_nth s Hd) as (E8 & E13 & E18 & E23).
  cbv zeta. unfold parseUUID_full. rewrite <- length_chars in H.
  set (cs := list_ascii_of_string s) in *. rewrite H. cbn [Nat.eqb].
  unfold char_at. rewrite E8, E13, E18, E23. cbn [bind].
  replace (Ascii.eqb dash dash) with true by reflexivity. cbn [negb].
  destruct (filter_notdash_36 cs H E8 E13 E18 E23) as [Hf Hl].
  pose proof (filter_length_bound notdash (undashed cs)) as Hb.
  rewrite Hl in Hb.
  rewrite removeDashes_spec by (rewrite repeat_length, Hf; lia).
  cbn [bind firstn app Nat.add].
  rewrite skipn_repeat_zero, Hf.
  reflexivity.
Qed.

Lemma redash_shape h :
  List.length h = 32%nat ->
  String.length (string_of_list_ascii (redash h)) = 36%nat
  /\ dashes_ok (string_of_list_ascii (redash h)) = true
  /\ undashed (redash h) = h.
Proof.
  intros Hl.
  do 32 (destruct h as [| ? h]; [discriminate Hl |]).
  destruct h; [| discriminate Hl]. repeat split.
Qed.

Lemma filter_notdash_id l : forallb notdash l = true -> filter notdash l = l.
Proof.
  induction l as [| c l IH]; [reflexivity |]. cbn [forallb filter].
  rewrite andb_true_iff. intros [Hc Hl]. rewrite Hc. now rewrite IH.
Qed.

(** The byte that [hex.Decode] reports is one of the characters. *)
Lemma hex_Decode_full_reports src : forall b c,
  hex_Decode_full src = (b, Some (InvalidByteError c)) -> In c src.
Proof.
  induction src as [| p | p q l IH] using pair_ind; intros b c H.
  - discriminate H.
  - cbn in H. destruct (fromHexChar p); [discriminate H |].
    injection H as _ ->. now left.
  - cbn [hex_Decode_full] in H.
    destruct (fromHexChar p); [| injection H as _ ->; now left].
    destruct (fromHexChar q); [| injection H as _ ->; right; now left].
    destruct (hex_Decode_full l) as [bs err]. injection H as _ ->.
    right. right. exact (IH bs c eq_refl).
Qed.

Lemma scratch_no_dash l n c :
  In c (filter notdash l ++ repeat zero n) -> c <> dash.
Proof.
  intros H. apply in_app_or in H. destruct H as [H | H].
  - apply filter_In in H. destruct H as [_ H]. intros ->. discriminate H.
  - apply repeat_spec in H. subst c. discriminate.
Qed.

(** The text that [parseUUID] decodes for the dashed form of 32
    characters: the characters that are not dashes, then the zero bytes
    left in the scratch buffer. *)
Lemma parseUUID_full_redash h :
  List.length h = 32%nat ->
  parseUUID_full (string_of_list_ascii (redash h))
  = Ok (hex_DecodeString_full
          (string_of_list_ascii
             (filter notdash h
              ++ repeat zero (32 - List.length (filter notdash h))))).
Proof.
  intros Hl. destruct (redash_shape h Hl) as (E36 & Ed & Hu).
  rewrite (parseUUID_full_36 _ E36 Ed). cbv zeta.
  now rewrite list_ascii_of_string_of_list_ascii, Hu.
Qed.

(** Up to the kind of the error, [parseUUID] gives the same result with
    and without the dashes. *)
Lemma parseUUID_redash_kind h :
  List.length h = 32%nat ->
  parseUUID (string_of_list_ascii (redash h))
  = parseUUID (string_of_list_ascii h).
Proof.
  intros Hl. destruct (redash_shape h Hl) as (E36 & Ed & Hu).
  rewrite (parseUUID_36 _ E36 Ed). cbv zeta.
  rewrite list_ascii_of_string_of_list_ascii, Hu.
  rewrite parseUUID_32 by now rewrite string_of_chars_length.
  rewrite list_ascii_of_string_of_list_ascii.
  destruct (forallb is_hex_digit h) eqn:Hh.
  - rewrite (filter_notdash_hex h Hh), Hl. cbn [Nat.sub repeat].
    now rewrite app_nil_r.
  - rewrite !hex_Decode_bad; try reflexivity; try assumption.
    + now rewrite Hl.
    + now rewrite scratch_length.
    + apply scratch_not_hex; [lia | exact Hh].
Qed.

(** A dash among the 32 characters is reported differently by the two
    forms: as itself by the form without dashes, and as the zero byte
    left at the end of the scratch buffer by the dashed form, after 15
    bytes were decoded. *)
Example parseUUID_full_leading_dash :
  parseUUID_full "-a3d40490e2c80800102030405060000"
  = Ok ([], Some (HexError (InvalidByteError "-"%char)))
  /\ parseUUID_full "-a3d4049-0e2c-8080-0102-030405060000"
     = Ok ([163; 212; 4; 144; 226; 200; 8; 0; 16; 32; 48; 64; 80; 96; 0],
           Some (HexError (InvalidByteError zero))).
Proof. split; reflexivity. Qed.

(** ** [ToString] on a struct *)

Lemma ToString_struct u :
  Forall is_byte (Node u) ->
  exists t u',
    ToString u = Ok t /\ canonical t = true /\ String.length t = 36%nat
    /\ FromString t = Ok u'
    /\ Node u' = firstn 6 (Node u ++ repeat 0 6).
Proof.
  intros Hn. destruct (ToString_any u Hn) as (b & Eb & Hl & Hb & Et).
  destruct (dashed_hex_shape b Hl) as (L & _).
  exists (string_of_list_ascii (dashed_hex b)), (decoded b).
  split; [exact Et |].
  split; [apply dashed_hex_canonical; assumption |].
  split; [now rewrite string_of_chars_length |].
  split; [apply FromString_parsed, parse_dashed_hex; assumption |].
  rewrite ToString_uuid_any in Eb. apply Ok_inj, Some_inj in Eb. subst b.
  destruct (timestamp_bytes_shape (Timestamp u) 48) as [Ht _].
  unfold decoded. cbn [Node].
  destruct (timestamp_bytes (Timestamp u) 48)
    as [| t0 [| t1 [| t2 [| t3 [| t4 [| t5 [| ? ?]]]]]]]; try discriminate Ht.
  cbn [app skipn]. apply node_field_first6.
Qed.

(** * Main results *)

(** C1, as stated, fails: at the clock sequence 0 the parse of the
    generated string has the clock sequence 128. *)
Lemma roundtrip48_counterexample :
  NewWithParams 1633024800000000000 0 [1; 2; 3; 4; 5; 6] TimestampBits48
  = Ok "ab674967-4000-8080-0102-030405060000"%string
  /\ FromString "ab674967-4000-8080-0102-030405060000"%string
     = Ok {| Timestamp := 188460101484544; ClockSeq := 128;
             Node := [1; 2; 3; 4; 5; 6] |}
  /\ 128 <> 0.
Proof. repeat split. discriminate. Qed.

(** C1, amended. At width 48, for a clock sequence of at most 4095 and a
    node of 6 bytes, [FromString] of the string of [NewWithParams]
    reproduces the node exactly and the timestamp truncated to 48 bits.
    The clock sequence comes back with its bits 6 and 7 replaced by the
    variant tag [10]: it is [(clockSeq & 0xF3F) | 0x80], which is
    [clockSeq] exactly when bits 7 and 6 of [clockSeq] are [10]. *)
Theorem roundtrip48 timestamp clockSeq node :
  0 <= clockSeq <= 4095 -> List.length node = 6%nat -> Forall is_byte node ->
  exists s u,
    NewWithParams timestamp clockSeq node TimestampBits48 = Ok s
    /\ FromString s = Ok u
    /\ Timestamp u = timestamp mod 2 ^ 48
    /\ Node u = node
    /\ ClockSeq u = Z.lor (Z.land clockSeq 0x0F3F) 0x80
    /\ (ClockSeq u = clockSeq <-> Z.land clockSeq 0xC0 = 0x80).
Proof.
  intros Hcs Hn Hnode.
  assert (Hu : is_uint16 clockSeq) by (unfold is_uint16; lia).
  assert (Hw : supported_width TimestampBits48) by (right; now left).
  destruct (encoder_buffer_shape _ _ _ _ _ Hnode
              (NewWithParams_uuid_ok timestamp clockSeq node _ Hn Hw))
    as [Hl Hb].
  fold (encoded timestamp clockSeq node TimestampBits48) in Hl, Hb.
  eexists. eexists. split; [apply NewWithParams_ok; assumption |].
  split; [apply FromString_parsed, parse_dashed_hex; assumption |].
  unfold TimestampBits48. rewrite (decoded_encoded48 _ _ _ Hu Hn).
  cbn [Timestamp ClockSeq Node]. repeat split.
  - intros E. now apply (clock_roundtrip_exact clockSeq Hu).
  - intros E. apply (clock_roundtrip_exact clockSeq Hu). split; [lia | exact E].
Qed.

Lemma roundtrip48_witness :
  exists s u,
    NewWithParams 1633024800000000000 1234 [1; 2; 3; 4; 5; 6] TimestampBits48
    = Ok s
    /\ FromString s = Ok u
    /\ Timestamp u = 188460101484544
    /\ Node u = [1; 2; 3; 4; 5; 6]
    /\ ClockSeq u = 1170
    /\ (ClockSeq u = 1234 <-> Z.land 1234 0xC0 = 0x80).
Proof.
  apply (roundtrip48 1633024800000000000 1234 [1; 2; 3; 4; 5; 6]).
  - lia.
  - reflexivity.
  - repeat constructor; unfold is_byte; lia.
Defined.

(** C2, as stated, fails: at the clock sequence 4096 the upper nibble of
    byte 6 is 9 and the generated string is not valid. *)
Lemma version_variant_counterexample :
  NewWithParams_uuid 1 4096 [1; 2; 3; 4; 5; 6] TimestampBits48
  = Ok [0; 0; 0; 0; 0; 1; 144; 128; 1; 2; 3; 4; 5; 6; 0; 0]
  /\ Z.shiftr 144 4 = 9
  /\ Z.shiftr 144 4 <> versionV8
  /\ NewWithParams 1 4096 [1; 2; 3; 4; 5; 6] TimestampBits48
     = Ok "00000000-0001-9080-0102-030405060000"%string
  /\ IsValidUUIDv8 "00000000-0001-9080-0102-030405060000"%string = Ok false.
Proof. repeat split. discriminate. Qed.

(** C2, amended. In every buffer that the encoder builds, the top two
    bits of byte 7 are [10], for every [uint16] clock sequence. The
    upper nibble of byte 6 is [8 | (clockSeq >> 12)]: it is the version
    tag 8 exactly when bits 12 to 14 of the clock sequence are zero, so
    for every clock sequence of at most 4095. [IsValidUUIDv8] of the
    string that [NewWithParams] returns is true exactly in that case,
    whatever the timestamp. *)
Theorem version_variant_invariant timestamp clockSeq node timestampBits b :
  is_uint16 clockSeq -> Forall is_byte node ->
  NewWithParams_uuid timestamp clockSeq node timestampBits = Ok b ->
  (exists b6 b7,
      idx b 6 = Ok b6 /\ idx b 7 = Ok b7
      /\ Z.shiftr b7 6 = variantRFC4122
      /\ Z.shiftr b6 4 = Z.lor versionV8 (Z.shiftr clockSeq 12)
      /\ (Z.shiftr b6 4 = versionV8 <-> Z.land clockSeq 0x7000 = 0)
      /\ (clockSeq <= 4095 -> Z.shiftr b6 4 = versionV8))
  /\ (exists s,
        NewWithParams timestamp clockSeq node timestampBits = Ok s
        /\ IsValidUUIDv8 s = Ok (Z.land clockSeq 0x7000 =? 0)
        /\ (clockSeq <= 4095 -> IsValidUUIDv8 s = Ok true)).
Proof.
  intros Hcs Hnode Hb.
  destruct (NewWithParams_uuid_inv _ _ _ _ _ Hb) as [Hn Hw].
  rewrite (NewWithParams_uuid_ok _ _ _ _ Hn Hw) in Hb. apply Ok_inj in Hb.
  fold (encoded timestamp clockSeq node timestampBits) in Hb. subst b.
  destruct (encoded_clock_bytes timestamp clockSeq node timestampBits)
    as (E6 & E7 & _).
  destruct (clock_bytes_shape clockSeq) as (_ & _ & _ & Hv & _).
  destruct (version_nibble clockSeq Hcs) as (N1 & N2 & N3).
  split.
  - exists (clock_hi clockSeq), (clock_lo clockSeq).
    repeat split; try assumption; try apply N2.
    intros Hle. apply N2, N3, Hle.
  - eexists. split; [apply NewWithParams_ok; assumption |].
    rewrite IsValidUUIDv8_encoded by assumption.
    split; [reflexivity |].
    intros Hle. rewrite (N3 Hle). reflexivity.
Qed.

Lemma version_variant_invariant_witness :
  (exists b6 b7,
      idx [0; 0; 0; 0; 0; 1; 143; 191; 1; 2; 3; 4; 5; 6; 0; 0] 6 = Ok b6
      /\ idx [0; 0; 0; 0; 0; 1; 143; 191; 1; 2; 3; 4; 5; 6; 0; 0] 7 = Ok b7
      /\ Z.shiftr b7 6 = variantRFC4122
      /\ Z.shiftr b6 4 = Z.lor versionV8 (Z.shiftr 4095 12)
      /\ (Z.shiftr b6 4 = versionV8 <-> Z.land 4095 0x7000 = 0)
      /\ (4095 <= 4095 -> Z.shiftr b6 4 = versionV8))
  /\ (exists s,
        NewWithParams 1 4095 [1; 2; 3; 4; 5; 6] TimestampBits48 = Ok s
        /\ IsValidUUIDv8 s = Ok (Z.land 4095 0x7000 =? 0)
        /\ (4095 <= 4095 -> IsValidUUIDv8 s = Ok true)).
Proof.
  apply (version_variant_invariant 1 4095 [1; 2; 3; 4; 5; 6] TimestampBits48).
  - unfold is_uint16. lia.
  - repeat constructor; unfold is_byte; lia.
  - reflexivity.
Defined.




(** C4. Text-form round trip: whatever the timestamp, the clock sequence
    and the width, the buffer that the encoder builds is printed by
    [formatUUID] to a string that [parseUUID] reads back to the same 16
    bytes. Nothing is assumed of the version and variant bits: the clock
    sequence is arbitrary. *)
Theorem format_parse_roundtrip timestamp clockSeq node timestampBits b :
  Forall is_byte node ->
  NewWithParams_uuid timestamp clockSeq node timestampBits = Ok b ->
  exists s, formatUUID b = Ok s /\ parseUUID s = Ok b.
Proof.
  intros Hnode Hb.
  destruct (encoder_buffer_shape _ _ _ _ _ Hnode Hb) as [Hl Hby].
  exists (string_of_list_ascii (dashed_hex b)).
  split; [apply formatUUID_16, Hl | apply parse_dashed_hex; assumption].
Qed.

Lemma format_parse_roundtrip_witness :
  exists s,
    formatUUID [0; 0; 0; 0; 0; 1; 144; 128; 1; 2; 3; 4; 5; 6; 0; 0] = Ok s
    /\ parseUUID s = Ok [0; 0; 0; 0; 0; 1; 144; 128; 1; 2; 3; 4; 5; 6; 0; 0].
Proof.
  apply (format_parse_roundtrip 1 4096 [1; 2; 3; 4; 5; 6] 48).
  - repeat constructor; unfold is_byte; lia.
  - reflexivity.
Defined.

Section JSON.

(** [json.Marshal] at a string: all that is used of [encoding/json] is
    that a text of lower-case hex digits and dashes is encoded as
    itself between double quotes. *)
Variable json_Marshal : string -> result string.
Hypothesis json_Marshal_plain :
  forall s, canonical s = true -> json_Marshal s = Ok (json_quote s).

Lemma MarshalJSON_rejects u :
  List.length (Node u) <> 6%nat \/ Timestamp u = 0 \/ ClockSeq u > 4095 ->
  MarshalJSON json_Marshal (Some u) = Err NotValidObject.
Proof.
  intros H. unfold MarshalJSON.
  destruct (Nat.eqb_spec (List.length (Node u)) 6) as [Hn | Hn];
    [| reflexivity].
  destruct (Z.eqb_spec (Timestamp u) 0) as [Ht | Ht]; [reflexivity |].
  destruct (Z.gtb_spec (ClockSeq u) 4095) as [Hc | Hc]; [reflexivity |].
  exfalso. destruct H as [H | [H | H]]; [tauto | tauto | lia].
Qed.

Lemma MarshalJSON_accepts u :
  wf_UUIDv8 u ->
  List.length (Node u) = 6%nat -> Timestamp u <> 0 -> ClockSeq u <= 4095 ->
  exists s, ToString u = Ok s /\ canonical s = true
            /\ NewWithParams (Timestamp u) (ClockSeq u) (Node u) TimestampBits48
               = Ok s
            /\ MarshalJSON json_Marshal (Some u) = Ok (json_quote s).
Proof.
  intros (_ & Hcs & Hnode) Hn Ht Hc.
  assert (Hw : supported_width 48) by (right; now left).
  destruct (encoder_buffer_shape _ _ _ _ _ Hnode
              (NewWithParams_uuid_ok (Timestamp u) (ClockSeq u) (Node u) _ Hn Hw))
    as [Hl Hb].
  fold (encoded (Timestamp u) (ClockSeq u) (Node u) 48) in Hl, Hb.
  pose proof (dashed_hex_canonical _ Hl Hb) as Hcan.
  eexists. split; [apply ToString_ok, Hn |]. split; [exact Hcan |].
  split; [apply NewWithParams_ok; assumption |].
  unfold MarshalJSON. rewrite Hn. cbn [Nat.eqb negb orb].
  apply Z.eqb_neq in Ht. rewrite Ht. cbn [orb].
  destruct (Z.gtb_spec (ClockSeq u) 4095) as [Hgt | _]; [lia |].
  rewrite (ToString_ok u Hn). cbn [bind].
  rewrite IsValidUUIDv8_encoded by assumption.
  destruct (version_nibble (ClockSeq u) Hcs) as (_ & _ & N3).
  rewrite (N3 Hc). cbn [Z.eqb bind negb].
  apply json_Marshal_plain, Hcan.
Qed.

(** C5. For a struct that is not [nil], [MarshalJSON] returns an
    error exactly when the node is not 6 bytes long, the timestamp is
    0 or the clock sequence is above 4095; the second check, of the
    string, never fails. Otherwise its output is the string of
    [ToString], between double quotes; that string is canonical and
    is the one [NewWithParams] returns at width 48. *)
Theorem MarshalJSON_guard u :
  wf_UUIDv8 u ->
  ((exists e, MarshalJSON json_Marshal (Some u) = Err e)
   <-> List.length (Node u) <> 6%nat \/ Timestamp u = 0 \/ ClockSeq u > 4095)
  /\ (forall out, MarshalJSON json_Marshal (Some u) = Ok out ->
        exists s, ToString u = Ok s /\ canonical s = true
                  /\ NewWithParams (Timestamp u) (ClockSeq u) (Node u)
                       TimestampBits48 = Ok s
                  /\ out = json_quote s).
Proof.
  intros Hwf.
  destruct (Nat.eq_dec (List.length (Node u)) 6) as [Hn | Hn].
  2: { split; [split; [tauto | intros _; eexists; apply MarshalJSON_rejects; tauto] |].
       intros out H. rewrite MarshalJSON_rejects in H by tauto. discriminate H. }
  destruct (Z.eq_dec (Timestamp u) 0) as [Ht | Ht].
  { split; [split; [tauto | intros _; eexists; apply MarshalJSON_rejects; tauto] |].
    intros out H. rewrite MarshalJSON_rejects in H by tauto. discriminate H. }
  destruct (Z_le_gt_dec (ClockSeq u) 4095) as [Hc | Hc].
  2: { split; [split; [tauto | intros _; eexists; apply MarshalJSON_rejects; tauto] |].
       intros out H. rewrite MarshalJSON_rejects in H by tauto. discriminate H. }
  destruct (MarshalJSON_accepts u Hwf Hn Ht Hc) as (s & Hs & Hcan & Hnew & Hm).
  split.
  - split.
    + intros [e He]. rewrite Hm in He. discriminate He.
    + intros [H | [H | H]]; [tauto | tauto | lia].
  - intros out H. rewrite Hm in H. apply Ok_inj in H. subst out.
    exists s. auto.
Qed.

End JSON.

Lemma MarshalJSON_guard_witness :
  let json_Marshal := fun s => Ok (json_quote s) in
  let u := {| Timestamp := 123456789; ClockSeq := 2048;
              Node := [1; 2; 3; 4; 5; 6] |} in
  ((exists e, MarshalJSON json_Marshal (Some u) = Err e)
   <-> List.length (Node u) <> 6%nat \/ Timestamp u = 0 \/ ClockSeq u > 4095)
  /\ (forall out, MarshalJSON json_Marshal (Some u) = Ok out ->
        exists s, ToString u = Ok s /\ canonical s = true
                  /\ NewWithParams (Timestamp u) (ClockSeq u) (Node u)
                       TimestampBits48 = Ok s
                  /\ out = json_quote s).
Proof.
  apply (MarshalJSON_guard (fun s => Ok (json_quote s))).
  - intros s _. reflexivity.
  - repeat split; try (repeat constructor; unfold is_byte; lia);
      cbn; lia.
Defined.

(** C6. [NewWithParams] fails exactly when the node is not 6 bytes long
    (the node-length error, checked first) or the width is not 32, 48
    or 60 (the width error); with a node of 6 bytes and a supported
    width it returns a string, and the string is not empty. *)
Theorem NewWithParams_errors timestamp clockSeq node timestampBits :
  (List.length node <> 6%nat ->
   NewWithParams timestamp clockSeq node timestampBits = Err InvalidNodeLength)
  /\ (List.length node = 6%nat -> ~ supported_width timestampBits ->
      NewWithParams timestamp clockSeq node timestampBits
      = Err UnsupportedTimestampWidth)
  /\ (List.length node = 6%nat -> supported_width timestampBits ->
      exists s, NewWithParams timestamp clockSeq node timestampBits = Ok s
                /\ s <> EmptyString)
  /\ ((exists e, NewWithParams timestamp clockSeq node timestampBits = Err e)
      <-> List.length node <> 6%nat \/ ~ supported_width timestampBits).
Proof.
  assert (Hok : List.length node = 6%nat -> supported_width timestampBits ->
                exists s, NewWithParams timestamp clockSeq node timestampBits = Ok s
                          /\ s <> EmptyString).
  { intros Hn Hw. eexists. split; [apply NewWithParams_ok; assumption |].
    intros E. apply (f_equal String.length) in E.
    rewrite string_of_chars_length in E.
    destruct (dashed_hex_shape _ (encoded_length timestamp clockSeq node
                                    timestampBits Hn)) as [L _].
    rewrite L in E. discriminate E. }
  split; [apply NewWithParams_bad_node |].
  split; [apply NewWithParams_bad_width |].
  split; [exact Hok |].
  split.
  - intros [e He].
    destruct (Nat.eq_dec (List.length node) 6) as [Hn | Hn]; [| now left].
    destruct (supported_width_dec timestampBits) as [Hw | Hw]; [| now right].
    destruct (Hok Hn Hw) as (s & Hs & _). rewrite Hs in He. discriminate He.
  - intros H.
    destruct (Nat.eq_dec (List.length node) 6) as [Hn | Hn].
    + destruct H as [H | H]; [contradiction |].
      eexists. apply NewWithParams_bad_width; assumption.
    + eexists. apply NewWithParams_bad_node; assumption.
Qed.

Lemma NewWithParams_errors_witness :
  NewWithParams 1 0 [1; 2] 48 = Err InvalidNodeLength
  /\ NewWithParams 1 0 [1; 2; 3; 4; 5; 6] 64 = Err UnsupportedTimestampWidth
  /\ exists s, NewWithParams 1 0 [1; 2; 3; 4; 5; 6] 60 = Ok s /\ s <> EmptyString.
Proof.
  split; [| split].
  - apply (NewWithParams_errors 1 0 [1; 2] 48). cbn. lia.
  - apply (NewWithParams_errors 1 0 [1; 2; 3; 4; 5; 6] 64);
      [reflexivity | unfold supported_width; lia].
  - apply (NewWithParams_errors 1 0 [1; 2; 3; 4; 5; 6] 60);
      [reflexivity | unfold supported_width; lia].
Defined.

(** C7. Fixed-width decode. On any 16-byte buffer the decode step
    succeeds, in both of its copies: the field extraction of
    [FromString], written inline, and [decodeTimestamp], which
    [FromStringOrNil] calls on the first 6 bytes. The timestamp is the
    48-bit big-endian value of bytes 0 to 5, whatever width the buffer
    was encoded with, the clock sequence is [(b[6] & 0x0F) << 8 | b[7]]
    and the node is bytes 8 to 13. Every buffer that [parseUUID] returns
    is such a buffer; [FromString] returns these fields of it, and so
    does [FromStringOrNil] unless the buffer is all zero. *)
Theorem fixed_width_decode :
  (forall b, List.length b = 16%nat -> Forall is_byte b ->
     FromString_fields b
     = Ok {| Timestamp := be_value (firstn 6 b);
             ClockSeq := Z.lor (Z.shiftl (Z.land (nth 6 b 0) 0x0F) 8) (nth 7 b 0);
             Node := firstn 6 (skipn 8 b) |}
     /\ decodeTimestamp b = Ok (be_value (firstn 6 b))
     /\ decodeTimestamp (firstn 6 b) = Ok (be_value (firstn 6 b)))
  /\ (forall s b, parseUUID s = Ok b ->
        List.length b = 16%nat /\ Forall is_byte b
        /\ FromString s
           = Ok {| Timestamp := be_value (firstn 6 b);
                   ClockSeq := Z.lor (Z.shiftl (Z.land (nth 6 b 0) 0x0F) 8)
                                     (nth 7 b 0);
                   Node := firstn 6 (skipn 8 b) |}
        /\ FromStringOrNil s
           = Ok (if isAllZeroUUID b then None
                 else Some {| Timestamp := be_value (firstn 6 b);
                              ClockSeq := Z.lor (Z.shiftl (Z.land (nth 6 b 0) 0x0F) 8)
                                                (nth 7 b 0);
                              Node := firstn 6 (skipn 8 b) |})).
Proof.
  split.
  - intros b Hl Hb. split; [apply FromString_fields_16; assumption |].
    split.
    + apply decodeTimestamp_be; [lia | exact Hb].
    + rewrite <- (firstn_all2 (n := 6) (firstn 6 b)) at 2
        by (rewrite length_firstn; lia).
      apply decodeTimestamp_be.
      * rewrite length_firstn. lia.
      * apply Forall_firstn_bytes, Hb.
  - intros s b H. destruct (parseUUID_shape s b H) as [Hl Hb].
    repeat split; try assumption.
    + apply FromString_parsed, H.
    + apply FromStringOrNil_parsed, H.
Qed.

Lemma fixed_width_decode_witness :
  (FromString_fields [106; 154; 182; 116; 150; 116; 143; 191; 1; 2; 3; 4; 5; 6; 0; 0]
   = Ok {| Timestamp := 117212718601844; ClockSeq := 4031;
           Node := [1; 2; 3; 4; 5; 6] |}
   /\ decodeTimestamp [106; 154; 182; 116; 150; 116; 143; 191; 1; 2; 3; 4; 5; 6; 0; 0]
      = Ok 117212718601844
   /\ decodeTimestamp [106; 154; 182; 116; 150; 116] = Ok 117212718601844)
  /\ (FromString "6a9ab674-9674-8fbf-0102-030405060000"%string
      = Ok {| Timestamp := 117212718601844; ClockSeq := 4031;
              Node := [1; 2; 3; 4; 5; 6] |}
      /\ FromStringOrNil "6a9ab674-9674-8fbf-0102-030405060000"%string
         = Ok (Some {| Timestamp := 117212718601844; ClockSeq := 4031;
                       Node := [1; 2; 3; 4; 5; 6] |})).
Proof.
  split.
  - apply (proj1 fixed_width_decode
             [106; 154; 182; 116; 150; 116; 143; 191; 1; 2; 3; 4; 5; 6; 0; 0]).
    + reflexivity.
    + repeat constructor; unfold is_byte; lia.
  - apply (proj2 (proj2 (proj2 fixed_width_decode
             "6a9ab674-9674-8fbf-0102-030405060000"%string
             [106; 154; 182; 116; 150; 116; 143; 191; 1; 2; 3; 4; 5; 6; 0; 0]
             eq_refl))).
Defined.

(** C8. What [parseUUID] accepts and how it fails. A length other than
    32 and 36 is a length error. At length 36 a character other than a
    dash at position 8, 13, 18 or 23 is a format error. Otherwise the 32
    characters outside those positions are decoded as hex: if one of
    them is not a hex digit the result is the hex error, and if all are
    the result is 16 bytes whose lower-case hex digits are these 32
    characters, lower-cased. The case of the letters does not change
    the result. *)
Theorem parseUUID_taxonomy s :
  (String.length s <> 32%nat -> String.length s <> 36%nat ->
   parseUUID s = Err InvalidLength)
  /\ (String.length s = 36%nat -> dashes_ok s = false ->
      parseUUID s = Err InvalidFormat)
  /\ (String.length s = 32%nat \/ (String.length s = 36%nat /\ dashes_ok s = true) ->
      (forallb is_hex_digit (hex_body s) = false ->
       parseUUID s = Err InvalidHexEncoding)
      /\ (forallb is_hex_digit (hex_body s) = true ->
          exists b, parseUUID s = Ok b /\ List.length b = 16%nat
                    /\ Forall is_byte b
                    /\ hex_chars b = map to_lower (hex_body s)))
  /\ parseUUID (lower_string s) = parseUUID s.
Proof.
  split; [apply parseUUID_other |].
  split; [apply parseUUID_bad_dashes |].
  split; [| apply parseUUID_lower].
  intros [E32 | [E36 Ed]]; unfold hex_body.
  - rewrite E32. cbn [Nat.eqb]. rewrite (parseUUID_32 s E32).
    assert (Hev : Nat.even (List.length (list_ascii_of_string s)) = true)
      by now rewrite length_chars, E32.
    split; intros Hh.
    + apply hex_Decode_bad; assumption.
    + destruct (hex_Decode_ok _ Hev Hh) as (b & Hb & Hl & Hby & Hc).
      exists b. rewrite length_chars, E32 in Hl. repeat split; auto. lia.
  - rewrite E36. cbn [Nat.eqb]. rewrite (parseUUID_36 s E36 Ed). cbv zeta.
    pose proof (dashes_ok_nth s Ed) as (E8 & E13 & E18 & E23).
    pose proof E36 as E36'. rewrite <- length_chars in E36'.
    destruct (filter_notdash_36 _ E36' E8 E13 E18 E23) as [_ Hl].
    set (body := undashed (list_ascii_of_string s)) in *.
    pose proof (scratch_length body Hl) as Hs.
    split; intros Hh.
    + apply hex_Decode_bad; [now rewrite Hs |].
      apply scratch_not_hex; [lia | exact Hh].
    + rewrite (filter_notdash_hex body Hh), Hl. cbn [Nat.sub repeat].
      rewrite app_nil_r.
      destruct (hex_Decode_ok body) as (b & Hb & Hlen & Hby & Hc);
        [now rewrite Hl | exact Hh |].
      exists b. rewrite Hl in Hlen. repeat split; auto. lia.
Qed.

Lemma parseUUID_taxonomy_witness :
  parseUUID "12345"%string = Err InvalidLength
  /\ parseUUID "9a3d4049_0e2c-8080-0102-030405060000"%string = Err InvalidFormat
  /\ parseUUID "-a3d4049-0e2c-8080-0102-030405060000"%string
     = Err InvalidHexEncoding
  /\ parseUUID "9a3d40490e2c8080010203040506000g"%string = Err InvalidHexEncoding
  /\ (exists b, parseUUID "9A3D4049-0E2C-8080-0102-030405060000"%string = Ok b
                /\ List.length b = 16%nat /\ Forall is_byte b
                /\ hex_chars b
                   = list_ascii_of_string "9a3d40490e2c80800102030405060000").
Proof.
  split; [| split; [| split; [| split]]].
  - apply (proj1 (parseUUID_taxonomy "12345"%string)); cbn; lia.
  - apply (proj1 (proj2 (parseUUID_taxonomy
                           "9a3d4049_0e2c-8080-0102-030405060000"%string)));
      reflexivity.
  - refine (proj1 (proj1 (proj2 (proj2 (parseUUID_taxonomy
              "-a3d4049-0e2c-8080-0102-030405060000"%string))) _) _);
      [right; split |]; reflexivity.
  - refine (proj1 (proj1 (proj2 (proj2 (parseUUID_taxonomy
              "9a3d40490e2c8080010203040506000g"%string))) _) _);
      [left |]; reflexivity.
  - refine (proj2 (proj1 (proj2 (proj2 (parseUUID_taxonomy
              "9A3D4049-0E2C-8080-0102-030405060000"%string))) _) _);
      [right; split |]; reflexivity.
Defined.

(** C9. [formatUUID] has no failure path on a 16-byte buffer: it returns
    a string of 36 characters that matches
    [^[0-9a-f]{8}-[0-9a-f]{4}-[0-9a-f]{4}-[0-9a-f]{4}-[0-9a-f]{12}$],
    made of the two lower-case hex digits of every byte of the groups
    [0:4], [4:6], [6:8], [8:10] and [10:16] with dashes between them;
    the widths of the format never pad. *)
Theorem formatUUID_canonical b :
  List.length b = 16%nat -> Forall is_byte b ->
  exists s,
    formatUUID b = Ok s
    /\ String.length s = 36%nat
    /\ canonical s = true
    /\ s = string_of_list_ascii
             (hex_chars (firstn 4 b) ++ dash ::
              hex_chars (firstn 2 (skipn 4 b)) ++ dash ::
              hex_chars (firstn 2 (skipn 6 b)) ++ dash ::
              hex_chars (firstn 2 (skipn 8 b)) ++ dash ::
              hex_chars (firstn 6 (skipn 10 b))).
Proof.
  intros Hl Hb. exists (string_of_list_ascii (dashed_hex b)).
  split; [apply formatUUID_16, Hl |].
  split; [| split; [apply dashed_hex_canonical; assumption | reflexivity]].
  rewrite string_of_chars_length. apply dashed_hex_shape, Hl.
Qed.

Lemma formatUUID_canonical_witness :
  exists s,
    formatUUID [171; 103; 73; 103; 64; 0; 128; 128; 1; 2; 3; 4; 5; 6; 0; 0] = Ok s
    /\ String.length s = 36%nat
    /\ canonical s = true
    /\ s = "ab674967-4000-8080-0102-030405060000"%string.
Proof.
  apply (formatUUID_canonical
           [171; 103; 73; 103; 64; 0; 128; 128; 1; 2; 3; 4; 5; 6; 0; 0]).
  - reflexivity.
  - repeat constructor; unfold is_byte; lia.
Defined.

(** C10. Every struct that [FromString] returns, and every struct that
    [FromStringOrNil] returns, has a clock sequence of at most 4095 and
    a node of exactly 6 bytes; neither function looks at the version or
    variant bits. *)
Theorem parsed_struct_invariant s u :
  FromString s = Ok u \/ FromStringOrNil s = Ok (Some u) ->
  0 <= ClockSeq u <= 4095 /\ List.length (Node u) = 6%nat.
Proof.
  intros [H | H].
  - destruct (FromString_inv s u H) as (b & Hp & ->).
    destruct (parseUUID_shape s b Hp) as [Hl Hb].
    apply decoded_shape; assumption.
  - destruct (FromStringOrNil_inv s u H) as (b & Hp & _ & ->).
    destruct (parseUUID_shape s b Hp) as [Hl Hb].
    apply decoded_shape; assumption.
Qed.

(** A version-7 identifier: [FromString] accepts it, and [IsValidUUIDv8]
    does not. *)
Lemma parsed_struct_invariant_witness :
  IsValidUUIDv8 "0193bde4-a9fa-77eb-a304-6cf8530ece78"%string = Ok false
  /\ 0 <= ClockSeq {| Timestamp := 1734057699834; ClockSeq := 2027;
                      Node := [163; 4; 108; 248; 83; 14] |} <= 4095
  /\ List.length (Node {| Timestamp := 1734057699834; ClockSeq := 2027;
                          Node := [163; 4; 108; 248; 83; 14] |}) = 6%nat.
Proof.
  split; [reflexivity |].
  apply (parsed_struct_invariant "0193bde4-a9fa-77eb-a304-6cf8530ece78"%string).
  left. reflexivity.
Defined.

(** * Further properties of the code *)

(** X1. Validity is the version and variant bits alone. [IsValidUUIDv8]
    never fails; it answers true exactly when [parseUUID] accepts the
    text and the bytes have version nibble 8 and variant bits [10]: the
    all-zero test never changes the answer. The case of the hex letters
    does not matter. *)
Theorem IsValidUUIDv8_spec s :
  (exists v, IsValidUUIDv8 s = Ok v)
  /\ (IsValidUUIDv8 s = Ok true
      <-> exists b, parseUUID s = Ok b
                    /\ Z.shiftr (nth 6 b 0) 4 = versionV8
                    /\ Z.land (Z.shiftr (nth 7 b 0) 6) 3 = variantRFC4122)
  /\ IsValidUUIDv8 (lower_string s) = IsValidUUIDv8 s.
Proof.
  split; [| split].
  - destruct (parseUUID s) as [b | e] eqn:E.
    + eexists. apply (IsValidUUIDv8_parsed s b E).
    + eexists. apply (IsValidUUIDv8_unparsed s e E).
  - destruct (parseUUID s) as [b | e] eqn:E.
    + rewrite (IsValidUUIDv8_parsed s b E). split.
      * intros H. apply Ok_inj, tagged_v8_inv in H. exists b. tauto.
      * intros (b' & Hb' & Hv & Hr). apply Ok_inj in Hb'. subst b'.
        unfold tagged_v8. now rewrite Hv, Hr.
    + rewrite (IsValidUUIDv8_unparsed s e E). split; [discriminate |].
      intros (b & Hb & _). discriminate Hb.
  - unfold IsValidUUIDv8. now rewrite parseUUID_lower.
Qed.

(** X2. The fields of every struct that [FromString] returns fit their
    Go types, and the timestamp has at most 48 bits. *)
Theorem FromString_fields_fit s u :
  FromString s = Ok u ->
  0 <= Timestamp u < 2 ^ 48 /\ wf_UUIDv8 u.
Proof.
  intros H. destruct (FromString_inv s u H) as (b & Hp & ->).
  destruct (parseUUID_shape s b Hp) as [Hl Hb].
  apply decoded_wf; assumption.
Qed.

Lemma FromString_fields_fit_witness :
  0 <= Timestamp {| Timestamp := 0xffffffffffff; ClockSeq := 0xfff;
                    Node := [255; 255; 255; 255; 255; 255] |} < 2 ^ 48
  /\ wf_UUIDv8 {| Timestamp := 0xffffffffffff; ClockSeq := 0xfff;
                  Node := [255; 255; 255; 255; 255; 255] |}.
Proof.
  apply (FromString_fields_fit "FFFFFFFFFFFFFFFFFFFFFFFFFFFFFFFF"%string).
  reflexivity.
Defined.

(** X3. [FromStringOrNil] never fails. It returns a struct exactly when
    [FromString] returns that struct and the text is not the all-zero
    identifier; the two decoders, one written inline and one through
    [decodeTimestamp], agree. *)
Theorem FromStringOrNil_FromString s :
  (exists r, FromStringOrNil s = Ok r)
  /\ (forall u, FromStringOrNil s = Ok (Some u)
                <-> FromString s = Ok u /\ parseUUID s <> Ok (repeat 0 16)).
Proof.
  destruct (parseUUID s) as [b | e] eqn:E.
  - destruct (parseUUID_shape s b E) as [Hl Hb].
    rewrite (FromStringOrNil_parsed s b E), (FromString_parsed s b E).
    split; [eauto |]. intros u.
    destruct (isAllZeroUUID b) eqn:Ez.
    + rewrite (all_zero_16 b Hl Ez). split; [discriminate | tauto].
    + split.
      * intros H. apply Ok_inj, Some_inj in H. subst u.
        split; [reflexivity |]. intros H. apply Ok_inj in H. subst b.
        discriminate Ez.
      * intros [H _]. apply Ok_inj in H. now subst u.
  - rewrite (FromStringOrNil_unparsed s e E), (FromString_unparsed s e E).
    split; [eauto |]. intros u. split; [discriminate |].
    intros [H _]. discriminate H.
Qed.

(** X4. From text to bytes and back to text. When [parseUUID] accepts a
    text, [formatUUID] of the bytes is a text that parses to the same
    bytes and has the same hex digits, lower-cased; for an input of 36
    characters it is the input itself, lower-cased. *)
Theorem parse_then_format s b :
  parseUUID s = Ok b ->
  exists t, formatUUID b = Ok t
            /\ parseUUID t = Ok b
            /\ hex_body t = map to_lower (hex_body s)
            /\ (String.length s = 36%nat -> t = lower_string s).
Proof.
  intros H. destruct (parseUUID_shape s b H) as [Hl Hb].
  pose proof (parsed_hex_chars s b H) as Hh.
  destruct (dashed_hex_shape b Hl) as (L & _ & _ & _ & _ & Hu).
  exists (string_of_list_ascii (dashed_hex b)).
  split; [apply formatUUID_16, Hl |].
  split; [apply parse_dashed_hex; assumption |].
  split.
  - unfold hex_body at 1. rewrite string_of_chars_length, L. cbn [Nat.eqb].
    rewrite list_ascii_of_string_of_list_ascii, Hu. exact Hh.
  - intros E36. unfold lower_string. f_equal.
    pose proof (parsed_36_dashes s b H E36) as Ed.
    pose proof (dashes_ok_nth s Ed) as (E8 & E13 & E18 & E23).
    rewrite (dashed_hex_redash b Hl), Hh. unfold hex_body.
    rewrite E36. cbn [Nat.eqb].
    apply redash_undashed; [now rewrite length_chars | assumption ..].
Qed.

Lemma parse_then_format_witness :
  exists t,
    formatUUID [154; 61; 64; 73; 14; 44; 128; 128; 1; 2; 3; 4; 5; 6; 0; 0] = Ok t
    /\ parseUUID t = Ok [154; 61; 64; 73; 14; 44; 128; 128; 1; 2; 3; 4; 5; 6; 0; 0]
    /\ hex_body t
       = map to_lower (hex_body "9A3D4049-0E2C-8080-0102-030405060000")
    /\ (String.length "9A3D4049-0E2C-8080-0102-030405060000" = 36%nat ->
        t = lower_string "9A3D4049-0E2C-8080-0102-030405060000").
Proof.
  apply (parse_then_format "9A3D4049-0E2C-8080-0102-030405060000"%string).
  reflexivity.
Defined.

(** X5. The dashes are optional for what is accepted, not for what is
    reported. For any 32 characters, the text with dashes inserted after
    characters 8, 12, 16 and 20 is accepted exactly when the text
    without them is, with the same bytes. When they are refused, both
    are refused with an invalid-byte error of [encoding/hex], never with
    a length or format error. When none of the 32 characters is a dash
    the two results are the same in full: the same offending byte and
    the same bytes decoded before it. The dashed form never reports a
    dash as the offending byte, so the two errors differ whenever the
    form without dashes is refused for a dash. *)
Theorem dashes_optional h :
  List.length h = 32%nat ->
  let dashed := parseUUID_full (string_of_list_ascii (redash h)) in
  let plain := parseUUID_full (string_of_list_ascii h) in
  (forall b, dashed = Ok (b, None) <-> plain = Ok (b, None))
  /\ ((exists b, plain = Ok (b, None))
      \/ (exists b c b' c',
            plain = Ok (b, Some (HexError (InvalidByteError c)))
            /\ dashed = Ok (b', Some (HexError (InvalidByteError c')))))
  /\ (forallb notdash h = true -> dashed = plain)
  /\ (forall b c, dashed = Ok (b, Some (HexError (InvalidByteError c))) ->
      c <> dash).
Proof.
  intros Hl. cbv zeta.
  set (dashed := parseUUID_full (string_of_list_ascii (redash h))).
  set (plain := parseUUID_full (string_of_list_ascii h)).
  assert (K : by_kind dashed = by_kind plain).
  { unfold dashed, plain. rewrite <- !parseUUID_by_kind.
    apply parseUUID_redash_kind, Hl. }
  assert (Ep : plain = Ok (hex_DecodeString_full (string_of_list_ascii h))).
  { apply parseUUID_full_32. now rewrite string_of_chars_length. }
  assert (Ed : dashed
               = Ok (hex_DecodeString_full
                       (string_of_list_ascii
                          (filter notdash h
                           ++ repeat zero (32 - List.length (filter notdash h))))))
    by (apply parseUUID_full_redash, Hl).
  split; [| split; [| split]].
  - intros b. split; intros H; apply by_kind_Ok; apply by_kind_Ok in H;
      congruence.
  - destruct (forallb is_hex_digit h) eqn:Hh.
    + left.
      destruct (hex_Decode_ok h) as (bs & E & _);
        [now rewrite Hl | exact Hh |].
      exists bs. apply by_kind_Ok. unfold plain. rewrite <- parseUUID_by_kind.
      rewrite parseUUID_32 by now rewrite string_of_chars_length.
      now rewrite list_ascii_of_string_of_list_ascii.
    + right.
      assert (Kp : by_kind plain = Err InvalidHexEncoding).
      { unfold plain. rewrite <- parseUUID_by_kind.
        rewrite parseUUID_32 by now rewrite string_of_chars_length.
        rewrite list_ascii_of_string_of_list_ascii.
        apply hex_Decode_bad; [now rewrite Hl | exact Hh]. }
      assert (Kd : by_kind dashed = Err InvalidHexEncoding) by now rewrite K.
      rewrite Ep in Kp. rewrite Ed in Kd.
      destruct (by_kind_invalid_byte _ Kp) as (b & c & Fp).
      destruct (by_kind_invalid_byte _ Kd) as (b' & c' & Fd).
      exists b, c, b', c'. rewrite Ep, Ed, Fp, Fd. split; reflexivity.
  - intros Hn. rewrite Ep, Ed, (filter_notdash_id h Hn), Hl.
    cbn [Nat.sub repeat]. now rewrite app_nil_r.
  - intros b c H. rewrite Ed in H. apply Ok_inj in H.
    unfold hex_DecodeString_full in H.
    rewrite list_ascii_of_string_of_list_ascii in H.
    destruct (hex_Decode_full
                (filter notdash h
                 ++ repeat zero (32 - List.length (filter notdash h))))
      as [bs [[c0 |] |]] eqn:E; cbn [option_map] in H;
      try discriminate H.
    injection H as _ ->.
    exact (scratch_no_dash _ _ _ (hex_Decode_full_reports _ _ _ E)).
Qed.

Lemma dashes_optional_witness :
  let dashed := parseUUID_full "9a3d4049-0e2c-8080-0102-03040506000g" in
  let plain := parseUUID_full "9a3d40490e2c8080010203040506000g" in
  (forall b, dashed = Ok (b, None) <-> plain = Ok (b, None))
  /\ ((exists b, plain = Ok (b, None))
      \/ (exists b c b' c',
            plain = Ok (b, Some (HexError (InvalidByteError c)))
            /\ dashed = Ok (b', Some (HexError (InvalidByteError c')))))
  /\ (true = true -> dashed = plain)
  /\ (forall b c, dashed = Ok (b, Some (HexError (InvalidByteError c))) ->
      c <> dash).
Proof.
  apply (dashes_optional (list_ascii_of_string "9a3d40490e2c8080010203040506000g")).
  reflexivity.
Defined.

(** X6. From a text to a struct and back to a text. [ToString] of what
    [FromString] returns is always a valid UUIDv8 text, whatever the
    version and variant of the input. When the input has version nibble
    8, variant bits [10] and zero in its last two bytes, it is the
    canonical text of the input's own bytes. *)
Theorem FromString_then_ToString s b :
  parseUUID s = Ok b ->
  exists u t,
    FromString s = Ok u /\ ToString u = Ok t
    /\ canonical t = true
    /\ IsValidUUIDv8 t = Ok true
    /\ (IsValidUUIDv8 s = Ok true -> nth 14 b 0 = 0 -> nth 15 b 0 = 0 ->
        formatUUID b = Ok t).
Proof.
  intros H. destruct (parseUUID_shape s b H) as [Hl Hb].
  destruct (decoded_shape b Hl Hb) as [Hc Hn].
  destruct (decoded_wf b Hl Hb) as (_ & _ & Hu & Hnode).
  assert (Hw : supported_width 48) by (right; now left).
  destruct (encoded_shape (Timestamp (decoded b)) (ClockSeq (decoded b))
              (Node (decoded b)) 48 Hn Hnode Hw) as [Hel Heb].
  exists (decoded b). eexists.
  split; [apply FromString_parsed, H |].
  split; [apply ToString_ok, Hn |].
  split; [apply dashed_hex_canonical; assumption |].
  split.
  - rewrite IsValidUUIDv8_encoded by assumption.
    destruct (version_nibble _ Hu) as (_ & _ & N3).
    rewrite N3 by lia. reflexivity.
  - intros Hv H14 H15. rewrite (IsValidUUIDv8_parsed s b H) in Hv.
    apply Ok_inj in Hv.
    rewrite (encoded_decoded b Hl Hb Hv H14 H15).
    apply formatUUID_16, Hl.
Qed.

Lemma FromString_then_ToString_witness :
  exists u t,
    FromString "0193bde4-a9fa-77eb-a304-6cf8530ece78" = Ok u
    /\ ToString u = Ok t
    /\ canonical t = true
    /\ IsValidUUIDv8 t = Ok true
    /\ (IsValidUUIDv8 "0193bde4-a9fa-77eb-a304-6cf8530ece78" = Ok true ->
        nth 14 [1; 147; 189; 228; 169; 250; 119; 235; 163; 4; 108; 248; 83; 14;
                206; 120] 0 = 0 ->
        nth 15 [1; 147; 189; 228; 169; 250; 119; 235; 163; 4; 108; 248; 83; 14;
                206; 120] 0 = 0 ->
        formatUUID [1; 147; 189; 228; 169; 250; 119; 235; 163; 4; 108; 248; 83;
                    14; 206; 120] = Ok t).
Proof.
  apply (FromString_then_ToString "0193bde4-a9fa-77eb-a304-6cf8530ece78"%string).
  reflexivity.
Defined.

(** X7. Generated texts are fixed points: for a clock sequence whose
    bits 12 to 14 are zero, [ToString] of [FromString] of the string of
    [NewWithParams] is that string, at every width. *)
Theorem generated_text_stable timestamp clockSeq node timestampBits :
  is_uint16 clockSeq -> Z.land clockSeq 0x7000 = 0 ->
  List.length node = 6%nat -> Forall is_byte node ->
  supported_width timestampBits ->
  exists s u,
    NewWithParams timestamp clockSeq node timestampBits = Ok s
    /\ FromString s = Ok u /\ ToString u = Ok s.
Proof.
  intros Hcs Hz Hn Hnode Hw.
  destruct (encoded_shape timestamp clockSeq node timestampBits Hn Hnode Hw)
    as [Hl Hb].
  destruct (encoded_tail timestamp clockSeq node timestampBits Hn) as [H14 H15].
  eexists. eexists.
  split; [apply NewWithParams_ok; assumption |].
  split; [apply FromString_parsed, parse_dashed_hex; assumption |].
  apply ToString_decoded; try assumption.
  rewrite tagged_v8_encoded by assumption. now apply Z.eqb_eq.
Qed.

Lemma generated_text_stable_witness :
  exists s u,
    NewWithParams (2 ^ 60 - 1) 4095 [255; 255; 255; 255; 255; 255] 60 = Ok s
    /\ FromString s = Ok u /\ ToString u = Ok s.
Proof.
  apply (generated_text_stable (2 ^ 60 - 1) 4095 [255; 255; 255; 255; 255; 255] 60).
  - unfold is_uint16. lia.
  - reflexivity.
  - reflexivity.
  - repeat constructor; unfold is_byte; lia.
  - right. right. reflexivity.
Defined.

(** X8. [ToString] fails on one input only, the nil pointer, which it
    dereferences. On a struct with a node of any length it returns a
    canonical text and never the empty string; [FromString] of the text
    returns as node the first 6 bytes of the node given, a shorter node
    being padded with zeros. [FromStringOrNil] returns the nil pointer
    for every text it refuses: [ToString] of its result returns a text
    exactly when the text parses and is not the all-zero identifier,
    and panics otherwise. *)
Theorem ToString_fails_on_nil_only :
  ToString_ptr None = Err Panic
  /\ (forall u, Forall is_byte (Node u) ->
      exists t u',
        ToString_ptr (Some u) = Ok t /\ canonical t = true
        /\ String.length t = 36%nat
        /\ FromString t = Ok u'
        /\ Node u' = firstn 6 (Node u ++ repeat 0 6))
  /\ (forall s,
        ((exists t, (p <- FromStringOrNil s ;; ToString_ptr p) = Ok t)
         <-> exists b, parseUUID s = Ok b /\ isAllZeroUUID b = false)
        /\ ((p <- FromStringOrNil s ;; ToString_ptr p) = Err Panic
            <-> forall b, parseUUID s = Ok b -> isAllZeroUUID b = true)).
Proof.
  split; [reflexivity |]. split.
  - intros u Hu. apply ToString_struct, Hu.
  - intros s. destruct (parseUUID s) as [b | e] eqn:Eb.
    + destruct (parseUUID_shape s b Eb) as [Hl Hb].
      rewrite (FromStringOrNil_parsed s b Eb).
      destruct (isAllZeroUUID b) eqn:Hz; cbn [bind ToString_ptr].
      * split; split.
        -- intros [t Et]. discriminate Et.
        -- intros (b' & E' & Hz'). apply Ok_inj in E'. subst b'.
           rewrite Hz in Hz'. discriminate Hz'.
        -- intros _ b' E'. apply Ok_inj in E'. now subst b'.
        -- reflexivity.
      * destruct (ToString_struct (decoded b)) as (t & _ & E & _).
        { apply (decoded_wf b Hl Hb). }
        rewrite E. split; split.
        -- intros _. now exists b.
        -- intros _. now exists t.
        -- discriminate.
        -- intros H. rewrite (H b eq_refl) in Hz. discriminate Hz.
    + rewrite (FromStringOrNil_unparsed s e Eb). cbn [bind ToString_ptr].
      split; split.
      * intros [t Et]. discriminate Et.
      * intros (b' & E' & _). discriminate E'.
      * intros _ b' E'. discriminate E'.
      * reflexivity.
Qed.

Lemma ToString_fails_on_nil_only_witness :
  (exists t u',
     ToString_ptr (Some {| Timestamp := 0; ClockSeq := 0; Node := [7; 8] |})
     = Ok t
     /\ canonical t = true /\ String.length t = 36%nat
     /\ FromString t = Ok u'
     /\ Node u' = [7; 8; 0; 0; 0; 0])
  /\ (p <- FromStringOrNil "00000000-0000-0000-0000-000000000000" ;;
      ToString_ptr p) = Err Panic.
Proof.
  split.
  - apply (proj1 (proj2 ToString_fails_on_nil_only)
             {| Timestamp := 0; ClockSeq := 0; Node := [7; 8] |}).
    repeat constructor; unfold is_byte; lia.
  - apply (proj2 (proj2 (proj2 ToString_fails_on_nil_only)
                    "00000000-0000-0000-0000-000000000000"%string)).
    intros b E. apply Ok_inj in E. subst b. reflexivity.
Defined.

(** X9. What the decoder reads back at each width. Whatever the width,
    [FromString] of the string of [NewWithParams] has the node, the
    clock sequence with bits 6 and 7 replaced by [10], and as timestamp
    the window of the width: the low 32 bits shifted left by 16 at width
    32, the low 48 bits at width 48, bits 12 to 59 at width 60, where
    the low 12 bits are lost. *)
Theorem decode_at_width timestamp clockSeq node timestampBits :
  is_uint16 clockSeq -> List.length node = 6%nat -> Forall is_byte node ->
  supported_width timestampBits ->
  exists s,
    NewWithParams timestamp clockSeq node timestampBits = Ok s
    /\ FromString s
       = Ok {| Timestamp :=
                 if timestampBits =? 32 then (timestamp mod 2 ^ 32) * 2 ^ 16
                 else if timestampBits =? 48 then timestamp mod 2 ^ 48
                 else (timestamp / 2 ^ 12) mod 2 ^ 48;
               ClockSeq := Z.lor (Z.land clockSeq 0x0F3F) 0x80;
               Node := node |}.
Proof.
  intros Hcs Hn Hnode Hw.
  destruct (encoded_shape timestamp clockSeq node timestampBits Hn Hnode Hw)
    as [Hl Hb].
  eexists. split; [apply NewWithParams_ok; assumption |].
  rewrite (FromString_parsed _ _ (parse_dashed_hex _ Hl Hb)).
  rewrite (decoded_encoded _ _ _ _ Hcs Hn Hw). reflexivity.
Qed.

Lemma decode_at_width_witness :
  exists s,
    NewWithParams 1633024800000000000 0 [1; 2; 3; 4; 5; 6] 60 = Ok s
    /\ FromString s
       = Ok {| Timestamp := 0x6a9ab6749674; ClockSeq := 0x80;
               Node := [1; 2; 3; 4; 5; 6] |}.
Proof.
  apply (decode_at_width 1633024800000000000 0 [1; 2; 3; 4; 5; 6] 60).
  - unfold is_uint16. lia.
  - reflexivity.
  - repeat constructor; unfold is_byte; lia.
  - right. right. reflexivity.
Defined.

(** X10. Two timestamps give the same identifier exactly when they agree
    on the window of the width: at width 60 when they differ only in
    the low 12 bits or above bit 59, at width 32 when they agree on the
    low 32 bits. *)
Theorem same_identifier_iff_same_window t1 t2 clockSeq node timestampBits :
  List.length node = 6%nat -> Forall is_byte node ->
  supported_width timestampBits ->
  NewWithParams t1 clockSeq node timestampBits
  = NewWithParams t2 clockSeq node timestampBits
  <-> timestamp_window t1 timestampBits = timestamp_window t2 timestampBits.
Proof.
  intros Hn Hnode Hw.
  rewrite !NewWithParams_ok by assumption.
  destruct (encoded_shape t1 clockSeq node timestampBits Hn Hnode Hw) as [L1 B1].
  destruct (encoded_shape t2 clockSeq node timestampBits Hn Hnode Hw) as [L2 B2].
  split.
  - intros E. apply Ok_inj in E. apply (f_equal parseUUID) in E.
    rewrite !parse_dashed_hex in E by assumption. apply Ok_inj in E.
    unfold encoded in E. apply app_inv_tail in E.
    rewrite <- !be_value_timestamp_bytes by assumption. now rewrite E.
  - intros E. unfold encoded.
    rewrite (timestamp_bytes_window t1 _ Hw), (timestamp_bytes_window t2 _ Hw).
    now rewrite E.
Qed.

Lemma same_identifier_iff_same_window_witness :
  NewWithParams 4096 0 [1; 2; 3; 4; 5; 6] 60
  = NewWithParams 8191 0 [1; 2; 3; 4; 5; 6] 60
  <-> timestamp_window 4096 60 = timestamp_window 8191 60.
Proof.
  apply (same_identifier_iff_same_window 4096 8191 0 [1; 2; 3; 4; 5; 6] 60).
  - reflexivity.
  - repeat constructor; unfold is_byte; lia.
  - right. right. reflexivity.
Defined.

(** X11. [Value] never fails. It gives no value for a node that is not
    6 bytes long, and otherwise the text that [NewWithParams] returns
    at width 48 for the fields. Unlike [MarshalJSON] it checks neither
    the timestamp nor the clock sequence: the text is a valid UUIDv8
    exactly when bits 12 to 14 of the clock sequence are zero. *)
Theorem Value_spec u :
  is_uint16 (ClockSeq u) -> Forall is_byte (Node u) ->
  (List.length (Node u) <> 6%nat -> Value (Some u) = Ok None)
  /\ (List.length (Node u) = 6%nat ->
      exists t, Value (Some u) = Ok (Some t)
                /\ NewWithParams (Timestamp u) (ClockSeq u) (Node u)
                     TimestampBits48 = Ok t
                /\ IsValidUUIDv8 t = Ok (Z.land (ClockSeq u) 0x7000 =? 0)).
Proof.
  intros Hcs Hnode. split.
  - intros Hn. unfold Value. apply Nat.eqb_neq in Hn. now rewrite Hn.
  - intros Hn. assert (Hw : supported_width 48) by (right; now left).
    eexists. split; [apply Value_6, Hn |].
    split; [apply NewWithParams_ok; assumption |].
    apply IsValidUUIDv8_encoded; assumption.
Qed.

Lemma Value_spec_witness :
  (List.length [1; 2; 3] <> 6%nat ->
   Value (Some {| Timestamp := 0; ClockSeq := 0x1000; Node := [1; 2; 3] |})
   = Ok None)
  /\ (List.length [1; 2; 3] = 6%nat ->
      exists t,
        Value (Some {| Timestamp := 0; ClockSeq := 0x1000; Node := [1; 2; 3] |})
        = Ok (Some t)
        /\ NewWithParams 0 0x1000 [1; 2; 3] TimestampBits48 = Ok t
        /\ IsValidUUIDv8 t = Ok (Z.land 0x1000 0x7000 =? 0)).
Proof.
  apply (Value_spec {| Timestamp := 0; ClockSeq := 0x1000; Node := [1; 2; 3] |}).
  - unfold is_uint16. cbn. lia.
  - repeat constructor; unfold is_byte; lia.
Defined.

(** X12. Writing a struct with [Value] and reading the text back with
    [Scan] gives the node, the timestamp truncated to 48 bits and the
    clock sequence with bits 6 and 7 replaced by [10]. When bits 12 to
    14 of the clock sequence are zero, [Value] of the struct read back
    is the same text: one trip reaches a fixed point. *)
Theorem Value_then_Scan u u0 :
  is_uint16 (ClockSeq u) -> List.length (Node u) = 6%nat ->
  Forall is_byte (Node u) ->
  exists t,
    Value (Some u) = Ok (Some t)
    /\ Scan u0 (ScanString t)
       = ({| Timestamp := Timestamp u mod 2 ^ 48;
             ClockSeq := Z.lor (Z.land (ClockSeq u) 0x0F3F) 0x80;
             Node := Node u |}, None)
    /\ (Z.land (ClockSeq u) 0x7000 = 0 ->
        Value (Some (fst (Scan u0 (ScanString t)))) = Ok (Some t)).
Proof.
  intros Hcs Hn Hnode.
  assert (Hw : supported_width 48) by (right; now left).
  destruct (encoded_shape (Timestamp u) (ClockSeq u) (Node u) 48 Hn Hnode Hw)
    as [Hl Hb].
  destruct (encoded_tail (Timestamp u) (ClockSeq u) (Node u) 48 Hn) as [H14 H15].
  eexists. split; [apply Value_6, Hn |].
  unfold Scan.
  rewrite (FromString_parsed _ _ (parse_dashed_hex _ Hl Hb)).
  split.
  - now rewrite (decoded_encoded _ _ _ _ Hcs Hn Hw).
  - intros Hz. cbn [fst].
    destruct (decoded_shape _ Hl Hb) as [_ Hn'].
    rewrite (Value_6 _ Hn'). rewrite encoded_decoded; try assumption;
      [reflexivity |].
    rewrite tagged_v8_encoded by assumption. now apply Z.eqb_eq.
Qed.

Lemma Value_then_Scan_witness :
  exists t,
    Value (Some {| Timestamp := 2 ^ 48 + 5; ClockSeq := 0x0800;
                   Node := [1; 2; 3; 4; 5; 6] |}) = Ok (Some t)
    /\ Scan {| Timestamp := 0; ClockSeq := 0; Node := [] |} (ScanString t)
       = ({| Timestamp := 5; ClockSeq := 0x0880; Node := [1; 2; 3; 4; 5; 6] |},
          None)
    /\ (Z.land 0x0800 0x7000 = 0 ->
        Value (Some (fst (Scan {| Timestamp := 0; ClockSeq := 0; Node := [] |}
                            (ScanString t)))) = Ok (Some t)).
Proof.
  apply (Value_then_Scan
           {| Timestamp := 2 ^ 48 + 5; ClockSeq := 0x0800;
              Node := [1; 2; 3; 4; 5; 6] |}
           {| Timestamp := 0; ClockSeq := 0; Node := [] |}).
  - unfold is_uint16. cbn. lia.
  - reflexivity.
  - repeat constructor; unfold is_byte; lia.
Defined.

(** X13. [Scan] reads a string and the bytes of that string alike, and
    succeeds exactly when [parseUUID] accepts the text: it checks
    neither version, variant nor the all-zero identifier. Any other
    type is refused, and a failed [Scan] leaves the receiver as it
    was. *)
Theorem Scan_spec u0 :
  (forall s, Scan u0 (ScanBytes (bytes_of_string s)) = Scan u0 (ScanString s))
  /\ (forall s, snd (Scan u0 (ScanString s)) = None
                <-> exists b, parseUUID s = Ok b)
  /\ (forall s u, Scan u0 (ScanString s) = (u, None) -> FromString s = Ok u)
  /\ Scan u0 ScanOther = (u0, Some UnsupportedType)
  /\ (forall v e, snd (Scan u0 v) = Some e -> fst (Scan u0 v) = u0).
Proof.
  split; [| split; [| split; [| split]]].
  - intros s. unfold Scan. now rewrite string_of_bytes_of_string.
  - intros s. unfold Scan. destruct (parseUUID s) as [b | e] eqn:E.
    + rewrite (FromString_parsed s b E). cbn [snd]. split; eauto.
    + rewrite (FromString_unparsed s e E). cbn [snd].
      split; [discriminate | intros [b Hb]; discriminate Hb].
  - intros s u. unfold Scan. destruct (FromString s) as [p | e].
    + intros H. now injection H as ->.
    + intros H. discriminate H.
  - reflexivity.
  - intros v e. unfold Scan. destruct v as [s | bs |].
    + destruct (FromString s); [discriminate | reflexivity].
    + destruct (FromString (string_of_bytes bs)); [discriminate | reflexivity].
    + reflexivity.
Qed.

(** X14. [UnmarshalJSON] accepts exactly the JSON strings that
    [IsValidUUIDv8] accepts, and then stores what [FromString] returns:
    its own parse can no longer fail. On a refusal the receiver is as
    it was, and the error is the JSON error or the validity error. *)
Theorem UnmarshalJSON_spec json_Unmarshal u0 data :
  (snd (UnmarshalJSON json_Unmarshal u0 data) = None
   <-> exists s, json_Unmarshal data = Ok s /\ IsValidUUIDv8 s = Ok true)
  /\ (snd (UnmarshalJSON json_Unmarshal u0 data) = None ->
      exists s, json_Unmarshal data = Ok s
                /\ FromString s = Ok (fst (UnmarshalJSON json_Unmarshal u0 data)))
  /\ (forall e, snd (UnmarshalJSON json_Unmarshal u0 data) = Some e ->
        fst (UnmarshalJSON json_Unmarshal u0 data) = u0
        /\ (e = FailedToUnmarshal \/ e = NotValidInput)).
Proof.
  unfold UnmarshalJSON.
  destruct (json_Unmarshal data) as [s | je].
  2: { cbn [fst snd]. split; [| split].
       - split; [discriminate | intros (s & Hs & _); discriminate Hs].
       - discriminate.
       - intros e H. injection H as <-. auto. }
  destruct (parseUUID s) as [b | pe] eqn:E.
  - rewrite (IsValidUUIDv8_parsed s b E), (FromString_parsed s b E).
    destruct (tagged_v8 b) eqn:T; cbn [fst snd].
    + split; [| split].
      * split; [| reflexivity]. intros _. exists s.
        split; [reflexivity |].
        now rewrite (IsValidUUIDv8_parsed s b E), T.
      * intros _. exists s. split; [reflexivity |].
        apply FromString_parsed, E.
      * discriminate.
    + split; [| split].
      * split; [discriminate |].
        intros (s' & Hs' & Hv). apply Ok_inj in Hs'. subst s'.
        rewrite (IsValidUUIDv8_parsed s b E), T in Hv. discriminate Hv.
      * discriminate.
      * intros e H. injection H as <-. auto.
  - rewrite (IsValidUUIDv8_unparsed s pe E). cbn [fst snd].
    split; [| split].
    + split; [discriminate |].
      intros (s' & Hs' & Hv). apply Ok_inj in Hs'. subst s'.
      rewrite (IsValidUUIDv8_unparsed s pe E) in Hv. discriminate Hv.
    + discriminate.
    + intros e H. injection H as <-. auto.
Qed.

Section JSONRoundTrip.

(** All that is used of [encoding/json]: a text of lower-case hex digits
    and dashes is encoded as itself between double quotes, and decoded
    from that. *)
Variable json_Marshal : string -> result string.
Variable json_Unmarshal : string -> result string.
Hypothesis json_Marshal_plain :
  forall s, canonical s = true -> json_Marshal s = Ok (json_quote s).
Hypothesis json_Unmarshal_plain :
  forall s, canonical s = true -> json_Unmarshal (json_quote s) = Ok s.

(** X15. JSON round trip. What [MarshalJSON] writes, [UnmarshalJSON]
    accepts; the struct read back has the node, the timestamp truncated
    to 48 bits and the clock sequence with bits 6 and 7 replaced by
    [10]. Marshalling the struct read back gives the same output when
    the truncated timestamp is not zero, and is refused when it is
    zero. *)
Theorem JSON_roundtrip u u0 out :
  wf_UUIDv8 u ->
  MarshalJSON json_Marshal (Some u) = Ok out ->
  let u' := {| Timestamp := Timestamp u mod 2 ^ 48;
               ClockSeq := Z.lor (Z.land (ClockSeq u) 0x0F3F) 0x80;
               Node := Node u |} in
  UnmarshalJSON json_Unmarshal u0 out = (u', None)
  /\ (Timestamp u mod 2 ^ 48 <> 0 ->
      MarshalJSON json_Marshal (Some u') = Ok out)
  /\ (Timestamp u mod 2 ^ 48 = 0 ->
      MarshalJSON json_Marshal (Some u') = Err NotValidObject).
Proof.
  intros Hwf Hm. cbv zeta.
  destruct (Nat.eq_dec (List.length (Node u)) 6) as [Hn | Hn].
  2: { rewrite MarshalJSON_rejects in Hm by tauto. discriminate Hm. }
  destruct (Z.eq_dec (Timestamp u) 0) as [Ht | Ht].
  { rewrite MarshalJSON_rejects in Hm by tauto. discriminate Hm. }
  destruct (Z_le_gt_dec (ClockSeq u) 4095) as [Hc | Hc].
  2: { rewrite MarshalJSON_rejects in Hm by tauto. discriminate Hm. }
  destruct (MarshalJSON_accepts json_Marshal json_Marshal_plain u Hwf Hn Ht Hc)
    as (s & Hs & Hcan & _ & Hm').
  rewrite Hm' in Hm. apply Ok_inj in Hm. subst out.
  destruct Hwf as (_ & Hcs & Hnode).
  assert (Hw : supported_width 48) by (right; now left).
  destruct (encoded_shape (Timestamp u) (ClockSeq u) (Node u) 48 Hn Hnode Hw)
    as [Hl Hb].
  destruct (encoded_tail (Timestamp u) (ClockSeq u) (Node u) 48 Hn) as [H14 H15].
  rewrite (ToString_ok u Hn) in Hs. apply Ok_inj in Hs. subst s.
  set (b := encoded (Timestamp u) (ClockSeq u) (Node u) 48) in *.
  pose proof (parse_dashed_hex b Hl Hb) as Hp.
  assert (Htag : tagged_v8 b = true).
  { unfold b. rewrite tagged_v8_encoded by assumption.
    apply Z.eqb_eq, (version_nibble _ Hcs), Hc. }
  assert (Hd : decoded b
               = {| Timestamp := Timestamp u mod 2 ^ 48;
                    ClockSeq := Z.lor (Z.land (ClockSeq u) 0x0F3F) 0x80;
                    Node := Node u |}).
  { unfold b. now rewrite (decoded_encoded _ _ _ _ Hcs Hn Hw). }
  split.
  - unfold UnmarshalJSON.
    rewrite (json_Unmarshal_plain _ Hcan), (IsValidUUIDv8_parsed _ _ Hp), Htag.
    now rewrite (FromString_parsed _ _ Hp), Hd.
  - rewrite <- Hd.
    destruct (decoded_shape b Hl Hb) as [Hc' Hn'].
    destruct (decoded_wf b Hl Hb) as (_ & Hwf').
    split.
    + intros Hnz.
      destruct (MarshalJSON_accepts json_Marshal json_Marshal_plain
                  (decoded b) Hwf' Hn') as (s' & Hs' & _ & _ & Hm'');
        [rewrite Hd; exact Hnz | lia |].
      rewrite (ToString_decoded b Hl Hb Htag H14 H15) in Hs'.
      apply Ok_inj in Hs'. subst s'. exact Hm''.
    + intros Hz. apply MarshalJSON_rejects. right. left.
      rewrite Hd. exact Hz.
Qed.

End JSONRoundTrip.

Lemma JSON_roundtrip_witness :
  let quote := fun s => Ok (json_quote s) in
  let unquote := fun d : string =>
    match d with
    | String _ r => Ok (substring 0 (String.length r - 1) r)
    | EmptyString => Err JSONError
    end in
  let u := {| Timestamp := 2 ^ 48 + 123456789; ClockSeq := 0x0800;
              Node := [1; 2; 3; 4; 5; 6] |} in
  let u' := {| Timestamp := 123456789; ClockSeq := 0x0880;
               Node := [1; 2; 3; 4; 5; 6] |} in
  let out := json_quote "0000075b-cd15-8880-0102-030405060000" in
  UnmarshalJSON unquote {| Timestamp := 0; ClockSeq := 0; Node := [] |} out
  = (u', None)
  /\ (123456789 <> 0 -> MarshalJSON quote (Some u') = Ok out)
  /\ (123456789 = 0 -> MarshalJSON quote (Some u') = Err NotValidObject).
Proof.
  cbv zeta.
  refine (JSON_roundtrip
            (fun s => Ok (json_quote s))
            (fun d : string =>
               match d with
               | String _ r => Ok (substring 0 (String.length r - 1) r)
               | EmptyString => Err JSONError
               end)
            (fun s _ => eq_refl) _
            {| Timestamp := 2 ^ 48 + 123456789; ClockSeq := 0x0800;
               Node := [1; 2; 3; 4; 5; 6] |}
            {| Timestamp := 0; ClockSeq := 0; Node := [] |}
            (json_quote "0000075b-cd15-8880-0102-030405060000") _ _).
  - intros s _. unfold json_quote. f_equal. apply substring_quoted.
  - repeat split; try (repeat constructor; unfold is_byte; lia);
      cbn; lia.
  - reflexivity.
Defined.

(** X16. [New] with a working entropy source returns a valid UUIDv8:
    the clock sequence is masked to 12 bits before it is encoded. The
    text carries the low 48 bits of the clock reading and the 6 random
    bytes of the node. *)
Theorem New_valid unixNano r1 r2 :
  (2 <= List.length r1)%nat -> (6 <= List.length r2)%nat ->
  Forall is_byte r1 -> Forall is_byte r2 ->
  exists s u,
    New unixNano (Some r1) (Some r2) = Done s
    /\ IsValidUUIDv8 s = Ok true
    /\ FromString s = Ok u
    /\ Timestamp u = unixNano mod 2 ^ 48
    /\ Node u = firstn 6 r2
    /\ ClockSeq u
       = Z.lor (Z.land (nth 0 r1 0 * 256 + nth 1 r1 0) 0x0F3F) 0x80.
Proof.
  intros H1 H2 B1 B2.
  destruct r1 as [| a [| b rest]]; cbn [List.length] in H1; try lia.
  apply Forall_cons_iff in B1. destruct B1 as [Ha B1].
  apply Forall_cons_iff in B1. destruct B1 as [Hb _].
  destruct (rand_Read_6 r2 H2) as [E2 L2].
  assert (B2' : Forall is_byte (firstn 6 r2))
    by apply (Forall_firstn_skipn is_byte 6), B2.
  unfold New. rewrite rand_Read_2, E2.
  unfold BigEndian_Uint16. cbn [idx nth_error bind nth].
  set (v := Z.lor b (to_uint16 (Z.shiftl a 8))).
  assert (Hv : v = a * 256 + b).
  { unfold v, to_uint16. rewrite Z.lor_comm.
    assert (Hs : Z.shiftl a 8 = a * 256)
      by (rewrite Z.shiftl_mul_pow2 by lia; reflexivity).
    unfold is_byte in Ha, Hb. change (2 ^ 8) with 256 in Ha, Hb.
    rewrite Z.mod_small by (rewrite Hs; change (2 ^ 16) with 65536; lia).
    rewrite (lor_shiftl_add a b 8) by (change (2 ^ 8) with 256; lia).
    reflexivity. }
  pose proof (masked_clock_seq v) as Hm.
  assert (Hu : is_uint16 (Z.land v 0x0FFF)) by (unfold is_uint16; lia).
  assert (Hw : supported_width TimestampBits48) by (right; now left).
  destruct (encoded_shape (to_uint64 unixNano) (Z.land v 0x0FFF) (firstn 6 r2)
              TimestampBits48 L2 B2' Hw) as [Hl Hby].
  rewrite (NewWithParams_ok _ _ _ _ L2 Hw). cbn [lift].
  eexists. eexists. split; [reflexivity |].
  split.
  { rewrite IsValidUUIDv8_encoded by assumption.
    destruct (version_nibble _ Hu) as (_ & _ & N3). rewrite N3 by lia.
    reflexivity. }
  split; [apply FromString_parsed, parse_dashed_hex; assumption |].
  rewrite (decoded_encoded _ _ _ _ Hu L2 Hw). cbn [Timestamp ClockSeq Node].
  split; [apply uint64_window48 |]. split; [reflexivity |].
  rewrite <- Hv, <- Z.land_assoc. reflexivity.
Qed.

Lemma New_valid_witness :
  exists s u,
    New 1633024800000000000 (Some [0xAB; 0xCD]) (Some [1; 2; 3; 4; 5; 6])
    = Done s
    /\ IsValidUUIDv8 s = Ok true
    /\ FromString s = Ok u
    /\ Timestamp u = 1633024800000000000 mod 2 ^ 48
    /\ Node u = [1; 2; 3; 4; 5; 6]
    /\ ClockSeq u = Z.lor (Z.land (0xAB * 256 + 0xCD) 0x0F3F) 0x80.
Proof.
  apply (New_valid 1633024800000000000 [0xAB; 0xCD] [1; 2; 3; 4; 5; 6]).
  - cbn. lia.
  - cbn. lia.
  - repeat constructor; unfold is_byte; lia.
  - repeat constructor; unfold is_byte; lia.
Defined.

(** X17. [New] fails only with the entropy source: with the clock
    sequence error when the first read fails, with the node error when
    the first read succeeds and the second fails, and never with an
    error of [NewWithParams]. *)
Theorem New_failures unixNano entropy1 entropy2 e :
  New unixNano entropy1 entropy2 = Failed e
  <-> (~ supplies 2 entropy1 /\ e = RandomClockSeqFailed)
      \/ (supplies 2 entropy1 /\ ~ supplies 6 entropy2
          /\ e = RandomNodeFailed).
Proof.
  unfold New.
  destruct (rand_Read entropy1 (repeat 0 2)) as [c |] eqn:E1.
  - destruct (rand_Read_Some _ _ _ E1) as [S1 L1].
    destruct c as [| a [| b [| ? ?]]]; try discriminate L1.
    unfold BigEndian_Uint16. cbn [idx nth_error bind].
    destruct (rand_Read entropy2 (repeat 0 6)) as [node |] eqn:E2.
    + destruct (rand_Read_Some _ _ _ E2) as [S2 L2].
      assert (Hw : supported_width TimestampBits48) by (right; now left).
      rewrite (NewWithParams_ok _ _ _ _ L2 Hw). cbn [lift].
      split; [discriminate |]. intros [[H _] | (_ & H & _)]; contradiction.
    + apply rand_Read_None in E2. split.
      * intros H. injection H as <-. right. auto.
      * intros [[H _] | (_ & _ & ->)]; [contradiction | reflexivity].
  - apply rand_Read_None in E1. split.
    + intros H. injection H as <-. left. auto.
    + intros [[_ ->] | (H & _)]; [reflexivity | contradiction].
Qed.

Lemma New_failures_witness :
  New 1633024800000000000 (Some [0xAB; 0xCD]) (Some [1; 2; 3])
  = Failed RandomNodeFailed
  <-> (~ supplies 2 (Some [0xAB; 0xCD]) /\ RandomNodeFailed = RandomClockSeqFailed)
      \/ (supplies 2 (Some [0xAB; 0xCD]) /\ ~ supplies 6 (Some [1; 2; 3])
          /\ RandomNodeFailed = RandomNodeFailed).
Proof.
  apply (New_failures 1633024800000000000 (Some [0xAB; 0xCD]) (Some [1; 2; 3])).
Defined.
